(** * sec-kpi-metrics: the category index and the search filter of [App.vue]

    A shallow embedding of the script block of [src/App.vue]: the loader
    ([hydrateMetric], [initialCategories]) and the filter engine
    ([toComparable], [matchesSearch], [filteredCategories], the
    [watchEffect] that reconciles the selection, [displayMetrics],
    [metricDetails]), followed by the properties the specification states
    about them.

    Strings are sequences of one-byte characters.  [toLowerCase] and [trim]
    are the Basic Latin parts of the ECMAScript operations: the letters
    [A]-[Z] are folded, the characters TAB, LF, VT, FF, CR and SPACE are
    white space, every other character is left alone. *)

From Stdlib Require Import ZArith Bool Ascii.
From stdpp Require Import gmap strings list pretty.

Local Open Scope Z_scope.

(** ** Strings *)

Module Str.

Definition isUpper (c : ascii) : bool :=
  let n := nat_of_ascii c in (65 <=? n)%nat && (n <=? 90)%nat.

Definition lowerChar (c : ascii) : ascii :=
  if isUpper c then ascii_of_nat (nat_of_ascii c + 32) else c.

(** [String.prototype.toLowerCase] *)
Fixpoint toLowerCase (s : string) : string :=
  match s with
  | EmptyString => EmptyString
  | String c s' => String (lowerChar c) (toLowerCase s')
  end.

Definition isWhiteSpace (c : ascii) : bool :=
  let n := nat_of_ascii c in
  (n =? 32)%nat || ((9 <=? n)%nat && (n <=? 13)%nat).

Fixpoint trimStart (s : string) : string :=
  match s with
  | EmptyString => EmptyString
  | String c s' => if isWhiteSpace c then trimStart s' else s
  end.

Fixpoint trimEnd (s : string) : string :=
  match s with
  | EmptyString => EmptyString
  | String c s' =>
      match trimEnd s' with
      | EmptyString => if isWhiteSpace c then EmptyString else String c EmptyString
      | t => String c t
      end
  end.

(** [String.prototype.trim] *)
Definition trim (s : string) : string := trimEnd (trimStart s).

(** [String.prototype.includes]: [sub] occurs in [s] at some offset. *)
Fixpoint includes (s sub : string) : bool :=
  String.prefix sub s ||
  match s with
  | EmptyString => false
  | String _ s' => includes s' sub
  end.

(** The truth value of a string in a condition: only [""] is falsy. *)
Definition truthy (s : string) : bool :=
  match s with
  | EmptyString => false
  | String _ _ => true
  end.

End Str.

(** ** JavaScript values held by a record field

    The declared type of a field is [string], or [string | null] and
    optional.  The data files are JSON and nothing checks them against the
    declared types at run time, and [toComparable] and [metricDetails] take
    their input as [unknown], so besides strings, [null] and [undefined]
    the model of a field value has booleans and numbers as well.  The
    numbers are the safe integers, of magnitude at most 2^53 - 1: those a
    Number holds exactly and [String] prints as their decimal numeral.
    Fractions, larger numbers, arrays and objects are no field values of
    the model; [toComparable] takes them through the class [Unknown]
    below. *)

(** [Number.isSafeInteger] on an integer. *)
Definition isSafeInteger (z : Z) : bool := Z.abs z <=? 9007199254740991.

Inductive JsVal : Type :=
  | JUndefined
  | JNull
  | JStr (s : string)
  | JBool (b : bool)
  | JNum (z : Z) (safe : Is_true (isSafeInteger z)).

#[global] Instance JsVal_eq_dec : EqDecision JsVal.
Proof.
  intros x y. destruct x as [| |s|b|z safe], y as [| |s'|b'|z' safe'];
    try (right; discriminate); try (left; reflexivity).
  - destruct (decide (s = s')) as [->|Hne]; [left; reflexivity|right; congruence].
  - destruct (decide (b = b')) as [->|Hne]; [left; reflexivity|right; congruence].
  - destruct (decide (z = z')) as [->|Hne]; [|right; congruence].
    left. f_equal. apply proof_irrel.
Defined.

(** [typeof v === 'string'] *)
Definition isString (v : JsVal) : bool :=
  match v with JStr _ => true | _ => false end.

(** [v != null]: false for [null] and for [undefined] *)
Definition notNullish (v : JsVal) : bool :=
  match v with JUndefined | JNull => false | _ => true end.

(** [String(v)] *)
Definition jsString (v : JsVal) : string :=
  match v with
  | JUndefined => "undefined"
  | JNull => "null"
  | JStr s => s
  | JBool true => "true"
  | JBool false => "false"
  | JNum z _ => pretty z
  end.

(** [v ?? d] *)
Definition coalesce (v d : JsVal) : JsVal :=
  if notNullish v then v else d.

Infix "??" := coalesce (at level 45, left associativity).

(** ** Records *)

(** [MetricBase]: a record as the data files give it. *)
Module Raw.
Record MetricBase : Type := mk {
  Category : JsVal;
  SubCategory : JsVal;
  MetricTitle : JsVal;
  MetricDescription : JsVal;
  ReportPeriod : JsVal;
  Target : JsVal;
  Comment : JsVal;
  Contributor : JsVal;
  Source : JsVal
}.
End Raw.

(** [Metric = MetricBase & { id: string }] *)
Record Metric : Type := mkMetric {
  id : string;
  Category : JsVal;
  SubCategory : JsVal;
  MetricTitle : JsVal;
  MetricDescription : JsVal;
  ReportPeriod : JsVal;
  Target : JsVal;
  Comment : JsVal;
  Contributor : JsVal;
  Source : JsVal
}.

(** [CategoryMeta]: an entry of [data/index.json]. *)
Module Meta.
Record CategoryMeta : Type := mk {
  category : string;
  slug : string;
  file : string;
  count : Z
}.
End Meta.

(** [CategoryEntry = CategoryMeta & { items: Metric[] }] *)
Record CategoryEntry : Type := mkEntry {
  category : string;
  slug : string;
  file : string;
  count : Z;
  items : list Metric
}.

(** An element of [filteredCategories]: [{ ...category, matchCount }]. *)
Record FilteredCategory : Type := mkFiltered {
  entry :> CategoryEntry;
  matchCount : Z
}.

(** A module of [import.meta.glob]: its [default] export. *)
Record JsonModule : Type := mkModule {
  module_default : list Raw.MetricBase
}.

(** ** Catalog loader *)

Definition hydrateMetric (metric : Raw.MetricBase) (slug : string) (index : nat) : Metric :=
  {| id := slug +:+ "-" +:+ pretty index;
     Category := Raw.Category metric ?? JStr "";
     SubCategory := Raw.SubCategory metric ?? JNull;
     MetricTitle := Raw.MetricTitle metric ?? JStr "";
     MetricDescription := Raw.MetricDescription metric ?? JStr "";
     ReportPeriod := Raw.ReportPeriod metric ?? JStr "";
     Target := Raw.Target metric ?? JStr "";
     Comment := Raw.Comment metric ?? JStr "";
     Contributor := Raw.Contributor metric ?? JStr "";
     Source := Raw.Source metric ?? JStr "" |}.

Definition moduleKey (slug : string) : string :=
  "./data/metrics/" +:+ slug +:+ ".json".

Definition loadCategory (modules : gmap string JsonModule) (meta : Meta.CategoryMeta)
  : CategoryEntry :=
  let module := modules !! moduleKey (Meta.slug meta) in
  let rawItems := default [] (module_default <$> module) in
  let items := imap (fun itemIndex item => hydrateMetric item (Meta.slug meta) itemIndex) rawItems in
  {| category := Meta.category meta;
     slug := Meta.slug meta;
     file := Meta.file meta;
     items := items;
     count := Z.of_nat (length items) |}.

Definition initialCategories (metricsIndex : list Meta.CategoryMeta)
    (modules : gmap string JsonModule) : list CategoryEntry :=
  map (loadCategory modules) metricsIndex.

(** ** Filter and search engine *)

(** The keys of [Metric] the script indexes records with. *)
Inductive MetricField : Type :=
  | FMetricTitle
  | FMetricDescription
  | FCategory
  | FSubCategory
  | FReportPeriod
  | FTarget
  | FComment
  | FContributor
  | FSource.

#[global] Instance MetricField_eq_dec : EqDecision MetricField.
Proof. solve_decision. Defined.

(** [field.toString()] *)
Definition fieldName (f : MetricField) : string :=
  match f with
  | FMetricTitle => "MetricTitle"
  | FMetricDescription => "MetricDescription"
  | FCategory => "Category"
  | FSubCategory => "SubCategory"
  | FReportPeriod => "ReportPeriod"
  | FTarget => "Target"
  | FComment => "Comment"
  | FContributor => "Contributor"
  | FSource => "Source"
  end.

(** [metric[field]] *)
Definition getField (metric : Metric) (f : MetricField) : JsVal :=
  match f with
  | FMetricTitle => MetricTitle metric
  | FMetricDescription => MetricDescription metric
  | FCategory => Category metric
  | FSubCategory => SubCategory metric
  | FReportPeriod => ReportPeriod metric
  | FTarget => Target metric
  | FComment => Comment metric
  | FContributor => Contributor metric
  | FSource => Source metric
  end.

Definition searchableFields : list MetricField :=
  [FMetricTitle; FMetricDescription; FCategory; FSubCategory; FReportPeriod;
   FTarget; FComment; FContributor; FSource].

(** What the script observes of an input of type [unknown]: whether
    [typeof input === 'string'], whether [input != null], and
    [String(input)], which for a string is the string itself. *)
Class Unknown (V : Type) : Type := {
  typeofString : V -> bool;
  notNull : V -> bool;
  toString : V -> string
}.

(** The field values are such inputs. *)
#[global] Instance JsVal_Unknown : Unknown JsVal :=
  {| typeofString := isString; notNull := notNullish; toString := jsString |}.

Definition toComparable {V : Type} `{Unknown V} (input : V) : string :=
  if typeofString input then Str.toLowerCase (toString input)
  else if notNull input then Str.toLowerCase (toString input)
  else "".

Definition matchesSearch (metric : Metric) (query : string) : bool :=
  if negb (Str.truthy query) then true
  else
    let normalizedQuery := Str.toLowerCase query in
    existsb (fun field => Str.includes (toComparable (getField metric field)) normalizedQuery)
            searchableFields.

Definition allMetrics (categories : list CategoryEntry) : list Metric :=
  flat_map items categories.

Definition filteredCategories (categories : list CategoryEntry) (searchQuery : string)
  : list FilteredCategory :=
  let query := Str.toLowerCase (Str.trim searchQuery) in
  List.filter
    (fun category : FilteredCategory =>
       if Str.truthy query then 0 <? matchCount category else 0 <? count category)
    (map (fun category =>
            let matchCount :=
              if Str.truthy query
              then Z.of_nat (length (List.filter (fun metric => matchesSearch metric query)
                                                 (items category)))
              else count category in
            {| entry := category; matchCount := matchCount |})
         categories).

(** The reactive state of the component that the engine reads and writes. *)
Record AppState : Type := mkState {
  categories : list CategoryEntry;
  searchQuery : string;
  selectedCategory : string
}.

(** The body of the [watchEffect] callback; it runs whenever
    [filteredCategories] or [selectedCategory] changes. *)
Definition watchEffect (st : AppState) : AppState :=
  let filtered := filteredCategories (categories st) (searchQuery st) in
  if negb (existsb (fun c : FilteredCategory => String.eqb (category c) (selectedCategory st))
                   filtered)
  then {| categories := categories st;
          searchQuery := searchQuery st;
          selectedCategory :=
            default "" ((fun c : FilteredCategory => category c) <$> head filtered) |}
  else st.

Definition displayMetrics (st : AppState) : list Metric :=
  let query := Str.toLowerCase (Str.trim (searchQuery st)) in
  if Str.truthy query
  then List.filter (fun metric => matchesSearch metric query) (allMetrics (categories st))
  else default [] (items <$> List.find (fun c => String.eqb (category c) (selectedCategory st))
                                       (categories st)).

(** ** Detail rows of a record *)

Definition iconFieldMap : gmap string string :=
  <["ReportPeriod" := "repeat"]>
  (<["Target" := "bullseye"]>
  (<["Comment" := "comment"]>
  (<["Source" := "arrow-up-right-from-square"]>
  (<["Contributor" := "user"]> ∅)))).

Definition detailFields : list MetricField :=
  [FReportPeriod; FTarget; FComment; FContributor; FSource].

Record MetricDetail : Type := mkDetail {
  field : string;
  value : string;
  icon : option string
}.

(** The string a detail row shows for a raw field value. *)
Definition detailValue (raw : JsVal) : string :=
  if isString raw then Str.trim (jsString raw)
  else if notNullish raw then jsString raw
  else "".

(** The callback of the [reduce]: one step over one field. *)
Definition detailStep (metric : Metric) (details : list MetricDetail) (f : MetricField)
  : list MetricDetail :=
  let raw := getField metric f in
  let value := detailValue raw in
  if negb (Str.truthy value) || String.eqb value "-" || String.eqb (Str.toLowerCase value) "null"
  then details
  else details ++ [ {| field := fieldName f;
                       value := value;
                       icon := iconFieldMap !! fieldName f |} ].

Definition metricDetails (metric : Metric) : list MetricDetail :=
  fold_left (detailStep metric) detailFields [].

(** ** Derived view state, handlers and template expressions *)

Definition activeCategorySummary (st : AppState) : option FilteredCategory :=
  if negb (Str.truthy (Str.trim (searchQuery st)))
  then List.find (fun c : FilteredCategory => String.eqb (category c) (selectedCategory st))
                 (filteredCategories (categories st) (searchQuery st))
  else None.

Definition activeCategoryCount (st : AppState) : Z :=
  default 0 ((fun c : FilteredCategory => count c) <$> activeCategorySummary st).

(** All four refs of the component: the three the engine reads, and the
    flag of the sidebar. *)
Record UiState : Type := mkUi {
  appState : AppState;
  isSidebarOpen : bool
}.

(** The refs as the script initialises them. *)
Definition initialState (metricsIndex : list Meta.CategoryMeta)
    (modules : gmap string JsonModule) : UiState :=
  let categories := initialCategories metricsIndex modules in
  {| appState := {| categories := categories;
               searchQuery := "";
               selectedCategory := default "" (category <$> head categories) |};
     isSidebarOpen := false |}.

Definition clearSearch (ui : UiState) : UiState :=
  {| appState := {| categories := categories (appState ui);
               searchQuery := "";
               selectedCategory := selectedCategory (appState ui) |};
     isSidebarOpen := isSidebarOpen ui |}.

Definition toggleSidebar (ui : UiState) : UiState :=
  {| appState := appState ui; isSidebarOpen := negb (isSidebarOpen ui) |}.

Definition closeSidebar (ui : UiState) : UiState :=
  {| appState := appState ui; isSidebarOpen := false |}.

Definition selectCategory (category : string) (ui : UiState) : UiState :=
  closeSidebar
    {| appState := {| categories := categories (appState ui);
                 searchQuery := searchQuery (appState ui);
                 selectedCategory := category |};
       isSidebarOpen := isSidebarOpen ui |}.

(** The [watchEffect] run on the refs; it does not touch the sidebar. *)
Definition flushEffect (ui : UiState) : UiState :=
  {| appState := watchEffect (appState ui); isSidebarOpen := isSidebarOpen ui |}.

(** The number the template prints beside a category of the sidebar and of
    the select box: [searchQuery ? category.matchCount : category.count]. *)
Definition sidebarCount (searchQuery : string) (category : FilteredCategory) : Z :=
  if Str.truthy searchQuery then matchCount category else count category.

(** * Vocabulary of the properties *)

(** ** Strings and numerals *)

(** [sub] occurs in [s]: the meaning of "is a substring of". *)
Definition Substring (sub s : string) : Prop :=
  exists pre post : string, s = pre +:+ sub +:+ post.

(** A decimal digit. *)
Definition isDigit (c : ascii) : bool :=
  let n := nat_of_ascii c in (48 <=? n)%nat && (n <=? 57)%nat.

(** Every character of the string satisfies [p]. *)
Fixpoint allChars (p : ascii -> bool) (s : string) : bool :=
  match s with
  | EmptyString => true
  | String c s' => p c && allChars p s'
  end.

(** A character that [trim] leaves in place. *)
Definition notWhiteSpace (c : ascii) : bool := negb (Str.isWhiteSpace c).

(** ** Records and catalogs *)

(** [metric[field]] on a raw record. *)
Definition getRawField (metric : Raw.MetricBase) (f : MetricField) : JsVal :=
  match f with
  | FMetricTitle => Raw.MetricTitle metric
  | FMetricDescription => Raw.MetricDescription metric
  | FCategory => Raw.Category metric
  | FSubCategory => Raw.SubCategory metric
  | FReportPeriod => Raw.ReportPeriod metric
  | FTarget => Raw.Target metric
  | FComment => Raw.Comment metric
  | FContributor => Raw.Contributor metric
  | FSource => Raw.Source metric
  end.

(** The loader's invariant: [count] is the number of items. *)
Definition countsItems (c : CategoryEntry) : Prop :=
  count c = Z.of_nat (length (items c)).

(** The number of records of a category that match a query. *)
Definition matchCountOf (query : string) (c : CategoryEntry) : Z :=
  Z.of_nat (length (List.filter (fun metric => matchesSearch metric query) (items c))).

(** The display names of the visible categories, in order. *)
Definition visibleNames (st : AppState) : list string :=
  (fun fc : FilteredCategory => category fc)
    <$> filteredCategories (categories st) (searchQuery st).

(** Display name and match count of each visible category. *)
Definition nameCounts (l : list FilteredCategory) : list (string * Z) :=
  (fun fc : FilteredCategory => (category fc, matchCount fc)) <$> l.

(** The sum of a list of integers. *)
Definition sumZ (l : list Z) : Z := foldr Z.add 0 l.

(** A category that holds a record. *)
Definition hasRecords (c : CategoryEntry) : Prop := items c <> [].

(** ** Detail rows *)

(** The text of a field value: its [String] conversion, and nothing for
    [null] and [undefined]. *)
Definition fieldText (raw : JsVal) : string :=
  if notNullish raw then jsString raw else "".

(** A value that stands for "nothing to show". *)
Definition placeholder (v : string) : Prop :=
  v = "" \/ v = "-" \/ Str.toLowerCase v = "null".

(** The three cases are decidable. *)
#[global] Instance placeholder_dec (v : string) : Decision (placeholder v).
Proof. unfold placeholder. apply _. Defined.

(** The field has something to show. *)
Definition shownField (metric : Metric) (f : MetricField) : Prop :=
  ~ placeholder (Str.trim (fieldText (getField metric f))).

(** The row a field contributes when it is shown. *)
Definition detailRow (metric : Metric) (f : MetricField) : MetricDetail :=
  {| field := fieldName f;
     value := Str.trim (fieldText (getField metric f));
     icon := iconFieldMap !! fieldName f |}.

(** * Sample data *)

(** A raw record that gives the three mandatory fields, a null Target and
    no other key. *)
Definition bareRecord : Raw.MetricBase :=
  {| Raw.Category := JStr "Governance";
     Raw.SubCategory := JUndefined;
     Raw.MetricTitle := JStr "Policy Review Rate";
     Raw.MetricDescription := JStr "Share of policies reviewed on schedule";
     Raw.ReportPeriod := JUndefined;
     Raw.Target := JNull;
     Raw.Comment := JUndefined;
     Raw.Contributor := JUndefined;
     Raw.Source := JUndefined |}.

(** A raw record with the mandatory fields and nothing else. *)
Definition rawRecord (category title description : string) : Raw.MetricBase :=
  {| Raw.Category := JStr category;
     Raw.SubCategory := JUndefined;
     Raw.MetricTitle := JStr title;
     Raw.MetricDescription := JStr description;
     Raw.ReportPeriod := JUndefined;
     Raw.Target := JUndefined;
     Raw.Comment := JUndefined;
     Raw.Contributor := JUndefined;
     Raw.Source := JUndefined |}.

(** The manifest of the specification's scenario, and a third category
    that is declared with a count but has no data file. *)
Definition scenarioIndex : list Meta.CategoryMeta :=
  [ {| Meta.category := "Governance"; Meta.slug := "governance";
       Meta.file := "governance.json"; Meta.count := 2 |};
    {| Meta.category := "Incident Response"; Meta.slug := "incident-response";
       Meta.file := "incident-response.json"; Meta.count := 1 |};
    {| Meta.category := "Threat Hunting"; Meta.slug := "threat-hunting";
       Meta.file := "threat-hunting.json"; Meta.count := 4 |} ].

(** The data files of the scenario. *)
Definition scenarioModules : gmap string JsonModule :=
  <[ "./data/metrics/governance.json" :=
       {| module_default :=
            [ rawRecord "Governance" "Board Reporting Cadence" "Briefings given per year";
              rawRecord "Governance" "Policy Review Rate" "Share reviewed on schedule" ] |} ]>
  (<[ "./data/metrics/incident-response.json" :=
       {| module_default :=
            [ rawRecord "Incident Response" "Mean Time to Contain" "Hours until isolated" ] |} ]>
   ∅).

(** The catalog the loader builds from them. *)
Definition scenarioCatalog : list CategoryEntry :=
  initialCategories scenarioIndex scenarioModules.

(** The first category of that catalog. *)
Definition governanceEntry : CategoryEntry :=
  loadCategory scenarioModules
    {| Meta.category := "Governance"; Meta.slug := "governance";
       Meta.file := "governance.json"; Meta.count := 2 |}.

(** The manifest of the scenario with the category that has no data file
    moved to the front. *)
Definition lateIndex : list Meta.CategoryMeta :=
  [ {| Meta.category := "Threat Hunting"; Meta.slug := "threat-hunting";
       Meta.file := "threat-hunting.json"; Meta.count := 4 |};
    {| Meta.category := "Governance"; Meta.slug := "governance";
       Meta.file := "governance.json"; Meta.count := 2 |};
    {| Meta.category := "Incident Response"; Meta.slug := "incident-response";
       Meta.file := "incident-response.json"; Meta.count := 1 |} ].

(** The record of the README without its Target and its Comment. *)
Definition partialRecord : Raw.MetricBase :=
  {| Raw.Category := JStr "Security Program";
     Raw.SubCategory := JStr "Maturity";
     Raw.MetricTitle := JStr "Cyber Hygiene Score";
     Raw.MetricDescription := JStr "Summary of the organization's cyber posture";
     Raw.ReportPeriod := JStr "Quarterly";
     Raw.Target := JUndefined;
     Raw.Comment := JNull;
     Raw.Contributor := JStr "Jane Doe";
     Raw.Source := JStr "CISA AWARE Scorecard" |}.

(** A category that holds no record. *)
Definition emptyCategory : CategoryEntry :=
  {| category := "Governance"; slug := "governance"; file := "governance.json";
     count := 0; items := [] |}.

(** Two categories under one display name, with different slugs. *)
Definition twinCatalog : list CategoryEntry :=
  initialCategories
    [ {| Meta.category := "Shared"; Meta.slug := "one"; Meta.file := "one.json";
         Meta.count := 1 |};
      {| Meta.category := "Shared"; Meta.slug := "two"; Meta.file := "two.json";
         Meta.count := 1 |} ]
    (<[ "./data/metrics/one.json" :=
          {| module_default := [ rawRecord "Shared" "Patch Latency" "Days to patch" ] |} ]>
     (<[ "./data/metrics/two.json" :=
          {| module_default := [ rawRecord "Shared" "Backup Success" "Restores tested" ] |} ]>
      ∅)).

(** The first of the two, as the loader builds it. *)
Definition twinFirst : CategoryEntry :=
  {| category := "Shared"; slug := "one"; file := "one.json"; count := 1;
     items := [ hydrateMetric (rawRecord "Shared" "Patch Latency" "Days to patch") "one" 0 ] |}.

(** * Properties *)

(** ** Facts about the string operations *)

(** Case analysis on the eight bits of a character. *)
Ltac ascii_cases c := destruct c as [[] [] [] [] [] [] [] []].

Section StringFacts.

Lemma truthy_false (s : string) : Str.truthy s = false <-> s = "".
Proof. destruct s; simpl; split; intros H; congruence. Qed.

Lemma truthy_true (s : string) : Str.truthy s = true <-> s <> "".
Proof. destruct s; simpl; split; intros H; congruence. Qed.

Lemma toLowerCase_truthy (s : string) :
  Str.truthy (Str.toLowerCase s) = Str.truthy s.
Proof. destruct s; reflexivity. Qed.

Lemma lowerChar_idem (c : ascii) : Str.lowerChar (Str.lowerChar c) = Str.lowerChar c.
Proof. ascii_cases c; reflexivity. Qed.

Lemma toLowerCase_idem (s : string) :
  Str.toLowerCase (Str.toLowerCase s) = Str.toLowerCase s.
Proof.
  induction s as [|c s IH]; simpl; [reflexivity|].
  rewrite lowerChar_idem, IH. reflexivity.
Qed.

Lemma append_cons (a : ascii) (s t : string) :
  String a s +:+ t = String a (s +:+ t).
Proof. reflexivity. Qed.

Lemma prefix_spec (sub s : string) :
  String.prefix sub s = true <-> exists post, s = sub +:+ post.
Proof.
  revert s. induction sub as [|a sub IH]; intros [|b s]; simpl.
  - split; [intros _; exists ""; reflexivity | reflexivity].
  - split; [intros _; exists (String b s); reflexivity | reflexivity].
  - split; [discriminate | intros [post H]; discriminate].
  - destruct (Ascii.ascii_dec a b) as [->|Hne].
    + rewrite IH. split; intros [post H]; exists post;
        rewrite append_cons in *; congruence.
    + split; [discriminate | intros [post H]; rewrite append_cons in H; congruence].
Qed.

Lemma includes_spec (s sub : string) :
  Str.includes s sub = true <-> Substring sub s.
Proof.
  unfold Substring. induction s as [|c s IH].
  - change (Str.includes "" sub) with (String.prefix sub "" || false).
    rewrite orb_false_r, prefix_spec. split.
    + intros [post H]. exists "", post. exact H.
    + intros [[|a pre] [post H]]; [exists post; exact H | discriminate].
  - change (Str.includes (String c s) sub)
      with (String.prefix sub (String c s) || Str.includes s sub).
    rewrite orb_true_iff, prefix_spec, IH. split.
    + intros [[post H] | (pre & post & H)].
      * exists "", post. exact H.
      * exists (String c pre), post. rewrite append_cons. congruence.
    + intros ([|a pre] & post & H).
      * left. exists post. exact H.
      * right. exists pre, post. rewrite append_cons in H. congruence.
Qed.

End StringFacts.

(** ** [toComparable] and [matchesSearch] *)

Lemma matchesSearch_lower (m : Metric) (q : string) :
  matchesSearch m (Str.toLowerCase q) = matchesSearch m q.
Proof.
  unfold matchesSearch.
  rewrite toLowerCase_truthy, toLowerCase_idem. reflexivity.
Qed.

(** C3.  An empty query matches every record.  A non-empty query matches a
    record exactly when the lower-cased query occurs in the comparable form
    of one of the nine fields MetricTitle, MetricDescription, Category,
    SubCategory, ReportPeriod, Target, Comment, Contributor, Source; the
    condition is a disjunction, so the order of the fields plays no part. *)
Theorem matchesSearch_spec (m : Metric) (q : string) :
  let occurs v := Substring (Str.toLowerCase q) (toComparable v) in
  matchesSearch m "" = true /\
  (q <> "" ->
   (matchesSearch m q = true <->
    occurs (MetricTitle m) \/ occurs (MetricDescription m) \/ occurs (Category m) \/
    occurs (SubCategory m) \/ occurs (ReportPeriod m) \/ occurs (Target m) \/
    occurs (Comment m) \/ occurs (Contributor m) \/ occurs (Source m))).
Proof.
  intros occurs. split; [reflexivity|].
  intros Hq. apply truthy_true in Hq.
  unfold matchesSearch, searchableFields. rewrite Hq.
  cbn [negb existsb getField].
  rewrite orb_false_r, !orb_true_iff, !includes_spec.
  unfold occurs. tauto.
Qed.

(** ** Decimal numerals *)

Section Numerals.

Lemma pretty_N_char_digit (x : N) : isDigit (pretty_N_char x) = true.
Proof. unfold pretty_N_char. repeat case_match; reflexivity. Qed.

Lemma pretty_N_go_digits (x : N) (s : string) :
  allChars isDigit s = true -> allChars isDigit (pretty_N_go x s) = true.
Proof.
  revert s. induction (N.lt_wf_0 x) as [x _ IH]; intros s Hs.
  destruct (decide (x = 0%N)) as [->|Hx].
  - rewrite pretty_N_go_0. exact Hs.
  - rewrite pretty_N_go_step by lia.
    apply IH; [apply N.div_lt; lia|].
    simpl. rewrite pretty_N_char_digit, Hs. reflexivity.
Qed.

Lemma pretty_N_digits (x : N) : allChars isDigit (pretty x) = true.
Proof.
  unfold pretty, pretty_N. case_decide; [reflexivity|].
  apply pretty_N_go_digits. reflexivity.
Qed.

Lemma pretty_nat_digits (n : nat) : allChars isDigit (pretty n) = true.
Proof. apply pretty_N_digits. Qed.

Lemma lowerChar_digit (c : ascii) : isDigit c = true -> Str.lowerChar c = c.
Proof. ascii_cases c; intros H; try discriminate H; reflexivity. Qed.

Lemma toLowerCase_digits (s : string) :
  allChars isDigit s = true -> Str.toLowerCase s = s.
Proof.
  induction s as [|c s IH]; simpl; [reflexivity|].
  intros [Hc Hs]%andb_true_iff. rewrite lowerChar_digit, IH; auto.
Qed.

Lemma toLowerCase_pretty_Z (z : Z) : Str.toLowerCase (pretty z) = pretty z.
Proof.
  destruct z as [|p|p]; [reflexivity| |].
  - apply toLowerCase_digits, (pretty_N_digits (Npos p)).
  - change (pretty (Z.neg p)) with (String "-" (pretty (Npos p))).
    simpl. f_equal. apply toLowerCase_digits, pretty_N_digits.
Qed.

End Numerals.

(** C5, as the specification words it, fails: a value that is neither a
    string nor absent is converted with [String] and lower-cased, so the
    number 42 compares as ["42"], not as the empty string. *)
Lemma toComparable_nonstring_counterexample :
  isString (JNum 42 I) = false /\
  toComparable (JNum 42 I) = "42" /\
  ~ (forall v : JsVal, isString v = false -> toComparable v = "").
Proof.
  split; [reflexivity|]. split; [reflexivity|].
  intros H. specialize (H (JNum 42 I) eq_refl). discriminate H.
Qed.

(** C5, amended.  For an input of any kind, observed through [typeof],
    [!= null] and [String]: [toComparable] lower-cases a string, gives the
    empty string for [null] and [undefined], and gives the lower-cased
    [String] conversion for every other value.  On the field values of the
    model: a boolean compares as ["true"] or ["false"], a safe integer as
    its decimal numeral. *)
Theorem toComparable_spec :
  (forall (V : Type) (U : Unknown V) (input : V),
     (typeofString input = true ->
        toComparable input = Str.toLowerCase (toString input)) /\
     (typeofString input = false -> notNull input = false ->
        toComparable input = "") /\
     (typeofString input = false -> notNull input = true ->
        toComparable input = Str.toLowerCase (toString input))) /\
  (forall s : string, toComparable (JStr s) = Str.toLowerCase s) /\
  toComparable JUndefined = "" /\
  toComparable JNull = "" /\
  (forall v : JsVal,
     toComparable v = if notNullish v then Str.toLowerCase (jsString v) else "") /\
  (forall b : bool, toComparable (JBool b) = if b then "true" else "false") /\
  (forall (z : Z) (safe : Is_true (isSafeInteger z)),
     toComparable (JNum z safe) = pretty z).
Proof.
  split.
  { intros V U input. unfold toComparable.
    split; [intros ->; reflexivity|].
    split; intros -> ->; reflexivity. }
  split; [reflexivity|]. split; [reflexivity|]. split; [reflexivity|].
  split; [intros []; reflexivity|].
  split; [intros []; reflexivity|].
  intros z safe. apply toLowerCase_pretty_Z.
Qed.

(** ** Hydration *)

(** C4, as the specification words it, fails on SubCategory: hydration
    defaults that field to [null], so a record without a SubCategory has a
    null field after hydration. *)
Lemma hydrateMetric_SubCategory_counterexample :
  Raw.SubCategory bareRecord = JUndefined /\
  SubCategory (hydrateMetric bareRecord "governance" 0) = JNull /\
  SubCategory (hydrateMetric bareRecord "governance" 0) <> JStr "".
Proof. split; [reflexivity|]. split; [reflexivity|discriminate]. Qed.

(** C4, amended.  A field other than SubCategory whose input is missing or
    null is the empty string after hydration, and any other input is kept
    as it is; SubCategory is [null] when its input is missing or null; no
    field of a hydrated record is [undefined], and none but SubCategory is
    [null]. *)
Theorem hydrateMetric_defaults (metric : Raw.MetricBase) (slug : string) (index : nat) :
  let h := hydrateMetric metric slug index in
  (forall f : MetricField, f <> FSubCategory ->
     getField h f = if notNullish (getRawField metric f) then getRawField metric f
                    else JStr "") /\
  SubCategory h = (if notNullish (Raw.SubCategory metric) then Raw.SubCategory metric
                   else JNull) /\
  (forall f : MetricField, getField h f <> JUndefined) /\
  (forall f : MetricField, f <> FSubCategory -> getField h f <> JNull).
Proof.
  intros h. repeat split.
  - intros f Hf. destruct f; try reflexivity. contradiction.
  - intros f. destruct f; simpl; unfold coalesce;
      match goal with |- context [notNullish ?v] => destruct v end; discriminate.
  - intros f Hf. destruct f; try contradiction; simpl; unfold coalesce;
      match goal with |- context [notNullish ?v] => destruct v end; discriminate.
Qed.

(** ** Catalog loader *)

Lemma loadCategory_items (modules : gmap string JsonModule) (meta : Meta.CategoryMeta) :
  items (loadCategory modules meta) =
  imap (fun i item => hydrateMetric item (Meta.slug meta) i)
       (default [] (module_default <$> modules !! moduleKey (Meta.slug meta))).
Proof. reflexivity. Qed.

(** C9.  Every manifest entry yields the category at its position of the
    catalog, with the entry's display name and slug; when the modules hold
    nothing under the entry's key its items are empty; and [count] is the
    number of items, whatever count the manifest declares. *)
Theorem initialCategories_entry (metricsIndex : list Meta.CategoryMeta)
    (modules : gmap string JsonModule) (i : nat) (meta : Meta.CategoryMeta) :
  metricsIndex !! i = Some meta ->
  exists c : CategoryEntry,
    initialCategories metricsIndex modules !! i = Some c /\
    category c = Meta.category meta /\
    slug c = Meta.slug meta /\
    (modules !! moduleKey (Meta.slug meta) = None -> items c = []) /\
    count c = Z.of_nat (length (items c)).
Proof.
  intros Hi. exists (loadCategory modules meta).
  unfold initialCategories. rewrite list_lookup_fmap, Hi.
  repeat split.
  intros Hnone. rewrite loadCategory_items, Hnone. reflexivity.
Qed.

Lemma initialCategories_entry_witness :
  exists c : CategoryEntry,
    initialCategories scenarioIndex scenarioModules !! 2%nat = Some c /\
    category c = "Threat Hunting" /\
    slug c = "threat-hunting" /\
    (scenarioModules !! moduleKey "threat-hunting" = None -> items c = []) /\
    count c = Z.of_nat (length (items c)).
Proof.
  exact (initialCategories_entry scenarioIndex scenarioModules 2
           {| Meta.category := "Threat Hunting"; Meta.slug := "threat-hunting";
              Meta.file := "threat-hunting.json"; Meta.count := 4 |} eq_refl).
Defined.

(** ** Record identifiers *)

Section Identifiers.

Variable modules : gmap string JsonModule.

Lemma digits_no_dash (d a b : string) :
  allChars isDigit d = true -> d <> a +:+ String "-" b.
Proof.
  revert a. induction d as [|c d IH]; intros a Hd Heq.
  - destruct a; discriminate Heq.
  - simpl in Hd. apply andb_true_iff in Hd as [Hc Hd].
    destruct a as [|x a].
    + injection Heq as -> _. discriminate Hc.
    + rewrite append_cons in Heq. injection Heq as _ Heq.
      exact (IH a Hd Heq).
Qed.

(** A text, a dash and a numeral: the whole determines the text and the
    numeral, since the last dash of the whole is the one between them. *)
Lemma dash_numeral_inj (s1 s2 d1 d2 : string) :
  allChars isDigit d1 = true -> allChars isDigit d2 = true ->
  s1 +:+ String "-" d1 = s2 +:+ String "-" d2 -> s1 = s2 /\ d1 = d2.
Proof.
  intros H1 H2. revert s2.
  induction s1 as [|a s1 IH]; intros [|b s2] Heq.
  - change (String "-" d1 = String "-" d2) in Heq.
    injection Heq as Heq. split; [reflexivity|exact Heq].
  - exfalso. change (String "-" d1 = String b (s2 +:+ String "-" d2)) in Heq.
    injection Heq as _ Heq.
    exact (digits_no_dash d1 s2 d2 H1 Heq).
  - exfalso. change (String a (s1 +:+ String "-" d1) = String "-" d2) in Heq.
    injection Heq as _ Heq.
    exact (digits_no_dash d2 s1 d1 H2 (eq_sym Heq)).
  - rewrite !append_cons in Heq. injection Heq as -> Heq.
    destruct (IH s2 Heq) as [-> ->]. split; reflexivity.
Qed.

Lemma hydrateMetric_id_inj (r1 r2 : Raw.MetricBase) (s1 s2 : string) (i j : nat) :
  id (hydrateMetric r1 s1 i) = id (hydrateMetric r2 s2 j) -> s1 = s2 /\ i = j.
Proof.
  intros Heq.
  change (s1 +:+ String "-" (pretty i) = s2 +:+ String "-" (pretty j)) in Heq.
  apply dash_numeral_inj in Heq as [-> Hp]; auto using pretty_nat_digits.
  split; [reflexivity|]. exact (pretty_nat_inj _ _ Hp).
Qed.

Lemma loadCategory_lookup (meta : Meta.CategoryMeta) (i : nat) (m : Metric) :
  items (loadCategory modules meta) !! i = Some m ->
  exists raw, m = hydrateMetric raw (Meta.slug meta) i.
Proof.
  rewrite loadCategory_items, list_lookup_imap.
  destruct (_ !! i) as [raw|]; simpl; [|discriminate].
  intros [= <-]. exists raw. reflexivity.
Qed.

Lemma loadCategory_ids_NoDup (meta : Meta.CategoryMeta) :
  NoDup (id <$> items (loadCategory modules meta)).
Proof.
  apply NoDup_alt. intros i j x Hi Hj.
  rewrite list_lookup_fmap in Hi, Hj.
  apply fmap_Some in Hi as (mi & Hi & ->).
  apply fmap_Some in Hj as (mj & Hj & Heq).
  apply loadCategory_lookup in Hi as [ri ->].
  apply loadCategory_lookup in Hj as [rj ->].
  apply hydrateMetric_id_inj in Heq as [_ Heq]. congruence.
Qed.

Lemma allMetrics_ids_slug (metricsIndex : list Meta.CategoryMeta) (x : string) :
  x ∈ id <$> allMetrics (initialCategories metricsIndex modules) ->
  exists (meta : Meta.CategoryMeta) (raw : Raw.MetricBase) (i : nat),
    meta ∈ metricsIndex /\ x = id (hydrateMetric raw (Meta.slug meta) i).
Proof.
  induction metricsIndex as [|meta rest IH]; simpl.
  - intros H. inversion H.
  - rewrite fmap_app, elem_of_app. intros [H|H].
    + apply list_elem_of_fmap in H as (m & -> & Hm).
      apply list_elem_of_lookup in Hm as [i Hi].
      apply loadCategory_lookup in Hi as [raw ->].
      exists meta, raw, i. split; [left|reflexivity].
    + destruct (IH H) as (meta' & raw & i & Hin & ->).
      exists meta', raw, i. split; [right; exact Hin|reflexivity].
Qed.

End Identifiers.



(** ** Visible categories *)

Section Visible.

Lemma matchCountOf_lower (q : string) (c : CategoryEntry) :
  matchCountOf (Str.toLowerCase q) c = matchCountOf q c.
Proof.
  unfold matchCountOf. do 2 f_equal.
  induction (items c) as [|m l IH]; simpl; [reflexivity|].
  rewrite matchesSearch_lower, IH. reflexivity.
Qed.

Lemma matchCountOf_nil (q : string) (c : CategoryEntry) :
  items c = [] -> matchCountOf q c = 0.
Proof. unfold matchCountOf. intros ->. reflexivity. Qed.

(** A [map] followed by a boolean [filter], read back on the mapped-from
    list as the sublist of a decidable property. *)
Lemma filter_map_project {A B : Type} (mk : A -> B) (proj : B -> A) (p : B -> bool)
    (P : A -> Prop) `{!forall a, Decision (P a)} (l : list A) :
  (forall a, proj (mk a) = a) ->
  (forall a, p (mk a) = true <-> P a) ->
  proj <$> List.filter p (map mk l) = filter P l.
Proof.
  intros Hproj Hp. induction l as [|a l IH]; simpl; [reflexivity|].
  rewrite filter_cons. specialize (Hp a).
  destruct (p (mk a)) eqn:Hpa; destruct (decide (P a)) as [HP|HP].
  - rewrite fmap_cons, Hproj, IH. reflexivity.
  - exfalso. apply HP, Hp. reflexivity.
  - apply Hp in HP. discriminate HP.
  - exact IH.
Qed.

Lemma initialCategories_countsItems (metricsIndex : list Meta.CategoryMeta)
    (modules : gmap string JsonModule) :
  Forall countsItems (initialCategories metricsIndex modules).
Proof.
  unfold initialCategories. apply Forall_fmap, Forall_forall. intros meta _. reflexivity.
Qed.

(** What a returned entry is: an entry of the catalog, with its match
    count, that passed the gate of its branch. *)
Lemma filteredCategories_elem (catalog : list CategoryEntry) (searchQuery : string)
    (fc : FilteredCategory) :
  fc ∈ filteredCategories catalog searchQuery ->
  entry fc ∈ catalog /\
  (Str.trim searchQuery <> "" ->
     matchCount fc = matchCountOf (Str.trim searchQuery) fc /\ 0 < matchCount fc) /\
  (Str.trim searchQuery = "" -> matchCount fc = count fc /\ 0 < count fc).
Proof.
  intros Hfc. unfold filteredCategories in Hfc.
  apply list_elem_of_In, filter_In in Hfc as [Hin Hkeep].
  apply in_map_iff in Hin as (c & <- & Hc). apply list_elem_of_In in Hc.
  simpl in Hkeep |- *. rewrite toLowerCase_truthy in Hkeep |- *.
  fold (matchCountOf (Str.toLowerCase (Str.trim searchQuery)) c) in Hkeep |- *.
  rewrite matchCountOf_lower in Hkeep |- *.
  split; [exact Hc|].
  destruct (Str.truthy (Str.trim searchQuery)) eqn:Hq.
  - apply truthy_true in Hq. apply Z.ltb_lt in Hkeep.
    split; [auto | intros E; contradiction].
  - apply truthy_false in Hq. apply Z.ltb_lt in Hkeep.
    split; [intros E; contradiction | auto].
Qed.

End Visible.

(** A category without records is hidden, with and without a query. *)
Example empty_category_hidden :
  filteredCategories [emptyCategory] "" = [] /\
  filteredCategories [emptyCategory] "governance" = [].
Proof. split; reflexivity. Qed.

(** C2.  The gate has one branch for a non-empty query and one for an
    empty query.  With [q] the trimmed query, the categories returned are,
    in catalog order, exactly those for which a non-empty [q] gives a
    positive match count and an empty [q] a positive [count]; the
    [matchCount] of a returned entry is the number of its records matching
    [q] when [q] is non-empty and its [count] when [q] is empty; and no
    returned category is without records: in every catalog whose counts
    are the sizes of the item lists, so in every catalog the loader
    builds, for every query. *)
Theorem filteredCategories_spec (catalog : list CategoryEntry) (searchQuery : string) :
  let q := Str.trim searchQuery in
  let visible := filteredCategories catalog searchQuery in
  entry <$> visible =
    filter (fun c => (q <> "" -> 0 < matchCountOf q c) /\ (q = "" -> 0 < count c)) catalog /\
  (forall fc : FilteredCategory, fc ∈ visible ->
     (q <> "" -> matchCount fc = matchCountOf q fc) /\
     (q = "" -> matchCount fc = count fc)) /\
  (Forall countsItems catalog ->
   forall fc : FilteredCategory, fc ∈ visible -> items fc <> []) /\
  (forall (metricsIndex : list Meta.CategoryMeta) (modules : gmap string JsonModule)
          (fc : FilteredCategory),
     fc ∈ filteredCategories (initialCategories metricsIndex modules) searchQuery ->
     items fc <> []).
Proof.
  intros q visible.
  assert (Hmem := filteredCategories_elem catalog searchQuery). fold q visible in Hmem.
  assert (Hrecords : forall l : list CategoryEntry, Forall countsItems l ->
            forall fc : FilteredCategory, fc ∈ filteredCategories l searchQuery ->
            items fc <> []).
  { intros l Hwf fc Hfc Hnil.
    destruct (filteredCategories_elem l searchQuery fc Hfc) as (Hin & Hne & He).
    fold q in Hne, He.
    rewrite Forall_forall in Hwf. specialize (Hwf _ Hin). unfold countsItems in Hwf.
    destruct (decide (q = "")) as [Hq|Hq].
    + destruct (He Hq) as [_ Hpos]. rewrite Hwf, Hnil in Hpos. simpl in Hpos. lia.
    + destruct (Hne Hq) as [Hmc Hpos]. rewrite Hmc, (matchCountOf_nil q _ Hnil) in Hpos. lia. }
  split; [|split; [|split]].
  - unfold visible, filteredCategories.
    apply filter_map_project; [reflexivity|].
    intros c. simpl. rewrite toLowerCase_truthy.
    fold (matchCountOf (Str.toLowerCase (Str.trim searchQuery)) c).
    rewrite matchCountOf_lower. fold q.
    destruct (Str.truthy q) eqn:Hq; rewrite Z.ltb_lt.
    + apply truthy_true in Hq. split; [intros H; split; [auto | intros E; contradiction]|].
      intros [H _]. auto.
    + apply truthy_false in Hq. split; [intros H; split; [intros E; contradiction | auto]|].
      intros [_ H]. auto.
  - intros fc Hfc. destruct (Hmem fc Hfc) as (_ & Hne & He).
    split; intros Hq; [apply Hne | apply He]; exact Hq.
  - intros Hwf. exact (Hrecords catalog Hwf).
  - intros metricsIndex modules.
    exact (Hrecords _ (initialCategories_countsItems metricsIndex modules)).
Qed.

(** ** Reconciliation of the selection *)

Section Selection.

Lemma existsb_named (l : list FilteredCategory) (sel : string) :
  existsb (fun c : FilteredCategory => String.eqb (category c) sel) l = true <->
  sel ∈ (fun fc : FilteredCategory => category fc) <$> l.
Proof.
  rewrite existsb_exists, list_elem_of_fmap. split.
  - intros (fc & Hin & Heq). apply String.eqb_eq in Heq.
    exists fc. split; [congruence | apply list_elem_of_In; exact Hin].
  - intros (fc & -> & Hin). exists fc.
    split; [apply list_elem_of_In; exact Hin | apply String.eqb_refl].
Qed.

Lemma watchEffect_keeps (st : AppState) :
  selectedCategory st ∈ visibleNames st -> watchEffect st = st.
Proof.
  intros Hin. apply existsb_named in Hin.
  unfold watchEffect. rewrite Hin. reflexivity.
Qed.

Lemma watchEffect_replaces (st : AppState) :
  selectedCategory st ∉ visibleNames st ->
  watchEffect st =
  {| categories := categories st; searchQuery := searchQuery st;
     selectedCategory := default "" (head (visibleNames st)) |}.
Proof.
  intros Hout. unfold watchEffect.
  destruct (existsb _ _) eqn:Hex.
  - exfalso. apply Hout, existsb_named, Hex.
  - simpl. unfold visibleNames.
    destruct (filteredCategories (categories st) (searchQuery st)); reflexivity.
Qed.

Lemma find_first_named (pre post : list CategoryEntry) (c : CategoryEntry) (sel : string) :
  category c = sel ->
  Forall (fun c' => category c' <> sel) pre ->
  List.find (fun c' => String.eqb (category c') sel) (pre ++ c :: post) = Some c.
Proof.
  intros Hc. induction 1 as [|c' pre Hne _ IH]; simpl.
  - apply String.eqb_eq in Hc. rewrite Hc. reflexivity.
  - apply String.eqb_neq in Hne. rewrite Hne. exact IH.
Qed.

Lemma find_none_named (catalog : list CategoryEntry) (sel : string) :
  Forall (fun c' => category c' <> sel) catalog ->
  List.find (fun c' => String.eqb (category c') sel) catalog = None.
Proof.
  induction 1 as [|c' l Hne _ IH]; simpl; [reflexivity|].
  apply String.eqb_neq in Hne. rewrite Hne. exact IH.
Qed.

End Selection.

(** C6, as the specification words it, fails in its last clause.  The
    selection is compared with display names, so a selection that names a
    category the query filters out stays when a visible category bears the
    same name: of the two categories named Shared the query "backup" hides
    the first, and the selection Shared is kept. *)
Lemma watchEffect_twin_counterexample :
  twinFirst ∈ twinCatalog /\
  category twinFirst = "Shared" /\
  (twinFirst ∉ entry <$> filteredCategories twinCatalog "backup") /\
  selectedCategory (watchEffect (mkState twinCatalog "backup" "Shared")) = "Shared".
Proof.
  split; [apply list_elem_of_In; vm_compute; left; reflexivity|].
  split; [reflexivity|]. split; [|vm_compute; reflexivity].
  intros Hin. apply list_elem_of_In in Hin. vm_compute in Hin.
  destruct Hin as [Heq|[]]. discriminate Heq.
Qed.

(** C6, amended.  The effect leaves the catalog and the query alone.  When
    the selection is the display name of a visible category it is kept;
    otherwise it becomes the name of the first visible category, or the
    empty string when none is visible.  So a selection that names no
    visible category is replaced, by a different name whenever a category
    is visible; this is the case of a selected category that the query
    filters out and that is the only one of its name.  Afterwards the
    selection is a visible name or, with nothing visible, empty. *)
Theorem watchEffect_spec (st : AppState) :
  let visible := filteredCategories (categories st) (searchQuery st) in
  let names := visibleNames st in
  let st' := watchEffect st in
  categories st' = categories st /\
  searchQuery st' = searchQuery st /\
  (selectedCategory st ∈ names -> selectedCategory st' = selectedCategory st) /\
  (selectedCategory st ∉ names ->
     (names = [] -> selectedCategory st' = "") /\
     (forall name rest, names = name :: rest ->
        selectedCategory st' = name /\ selectedCategory st' <> selectedCategory st)) /\
  (forall c : CategoryEntry,
     c ∈ categories st ->
     category c = selectedCategory st ->
     (forall c', c' ∈ categories st -> category c' = category c -> c' = c) ->
     c ∉ entry <$> visible ->
     selectedCategory st ∉ names) /\
  (selectedCategory st' ∈ names \/ (names = [] /\ selectedCategory st' = "")).
Proof.
  intros visible names st'. subst st'.
  assert (Hgone : forall c : CategoryEntry,
            c ∈ categories st ->
            category c = selectedCategory st ->
            (forall c', c' ∈ categories st -> category c' = category c -> c' = c) ->
            c ∉ entry <$> visible ->
            selectedCategory st ∉ names).
  { intros c Hc Hsel Huniq Hgone Hin.
    apply list_elem_of_fmap in Hin as (fc & Hname & Hfc).
    apply Hgone, list_elem_of_fmap. exists fc. split; [|exact Hfc].
    symmetry. apply Huniq; [|congruence].
    apply (filteredCategories_elem _ _ fc Hfc). }
  destruct (decide (selectedCategory st ∈ names)) as [Hin|Hout].
  - rewrite (watchEffect_keeps st Hin).
    split; [reflexivity|]. split; [reflexivity|]. split; [reflexivity|].
    split; [intros Hout; contradiction|]. split; [exact Hgone|].
    left. exact Hin.
  - rewrite (watchEffect_replaces st Hout). fold names. simpl.
    clearbody names. clear Hgone.
    split; [reflexivity|]. split; [reflexivity|].
    split; [intros Hin; contradiction|]. split; [|split].
    + intros _. split.
      * intros ->. reflexivity.
      * intros name rest ->. simpl. split; [reflexivity|].
        intros Heq. apply Hout. rewrite <- Heq. left.
    + intros c _ _ _ _. exact Hout.
    + destruct names as [|name rest]; [right; split; reflexivity|].
      left. simpl. left.
Qed.

(** ** Displayed records *)

Section Display.

Lemma displayMetrics_query (st : AppState) :
  Str.trim (searchQuery st) <> "" ->
  displayMetrics st =
  List.filter (fun m => matchesSearch m (Str.trim (searchQuery st)))
              (concat (items <$> categories st)).
Proof.
  intros Hq. unfold displayMetrics, allMetrics.
  rewrite toLowerCase_truthy. apply truthy_true in Hq. rewrite Hq.
  rewrite flat_map_concat_map.
  apply filter_ext. intros m. apply matchesSearch_lower.
Qed.

Lemma displayMetrics_no_query (st : AppState) :
  Str.trim (searchQuery st) = "" ->
  displayMetrics st =
  default [] (items <$> List.find (fun c => String.eqb (category c) (selectedCategory st))
                                  (categories st)).
Proof.
  intros Hq. unfold displayMetrics. rewrite Hq. reflexivity.
Qed.

End Display.

(** C1.  With a query that is non-empty after trimming, the records shown
    are the records of all categories, flattened in catalog order, that
    match the trimmed query, whatever the selection is.  With a query that
    trims to nothing, they are the items of the first category whose
    display name is the selection, and there are none when no category has
    that name. *)
Theorem displayMetrics_spec (catalog : list CategoryEntry) (query selected : string) :
  let q := Str.trim query in
  let shown := displayMetrics (mkState catalog query selected) in
  (q <> "" ->
     shown = List.filter (fun m => matchesSearch m q) (concat (items <$> catalog)) /\
     forall other : string, displayMetrics (mkState catalog query other) = shown) /\
  (q = "" ->
     (forall (pre post : list CategoryEntry) (c : CategoryEntry),
        catalog = pre ++ c :: post ->
        category c = selected ->
        Forall (fun c' => category c' <> selected) pre ->
        shown = items c) /\
     (Forall (fun c' => category c' <> selected) catalog -> shown = [])).
Proof.
  intros q shown. subst shown. split.
  - intros Hq. split.
    + apply (displayMetrics_query (mkState catalog query selected)). exact Hq.
    + intros other.
      rewrite (displayMetrics_query (mkState catalog query other)) by exact Hq.
      rewrite (displayMetrics_query (mkState catalog query selected)) by exact Hq.
      reflexivity.
  - intros Hq.
    rewrite (displayMetrics_no_query (mkState catalog query selected)) by exact Hq.
    simpl. split.
    + intros pre post c -> Hc Hpre.
      rewrite (find_first_named pre post c selected Hc Hpre). reflexivity.
    + intros Hnone. rewrite (find_none_named catalog selected Hnone). reflexivity.
Qed.

(** C10.  Selection goes by display name.  In a catalog where two
    categories carry the selected name, an empty query shows the items of
    the first of them only.  The effect compares the selection with the
    display names of the visible categories: it keeps the selection when a
    visible category bears it, whatever that category's slug, and otherwise
    replaces it by the name of the first visible category, or by the empty
    string; a selection that is the slug of a visible category and no
    visible name is replaced like any other.  So the selection afterwards
    is determined by the visible display names and the old selection. *)
Theorem selection_by_display_name :
  (forall (pre mid post : list CategoryEntry) (c1 c2 : CategoryEntry)
          (query selected : string),
     Str.trim query = "" ->
     category c1 = selected ->
     category c2 = selected ->
     Forall (fun c' => category c' <> selected) pre ->
     displayMetrics (mkState (pre ++ c1 :: mid ++ c2 :: post) query selected) = items c1) /\
  (forall (st : AppState) (fc : FilteredCategory),
     fc ∈ filteredCategories (categories st) (searchQuery st) ->
     category fc = selectedCategory st ->
     selectedCategory (watchEffect st) = selectedCategory st) /\
  (forall st : AppState,
     (forall fc : FilteredCategory,
        fc ∈ filteredCategories (categories st) (searchQuery st) ->
        category fc <> selectedCategory st) ->
     selectedCategory (watchEffect st) =
       match filteredCategories (categories st) (searchQuery st) with
       | [] => ""
       | fc :: _ => category fc
       end) /\
  (forall (st : AppState) (fc : FilteredCategory),
     fc ∈ filteredCategories (categories st) (searchQuery st) ->
     slug fc = selectedCategory st ->
     (forall fc' : FilteredCategory,
        fc' ∈ filteredCategories (categories st) (searchQuery st) ->
        category fc' <> selectedCategory st) ->
     selectedCategory (watchEffect st) <> selectedCategory st) /\
  (forall st1 st2 : AppState,
     visibleNames st1 = visibleNames st2 ->
     selectedCategory st1 = selectedCategory st2 ->
     selectedCategory (watchEffect st1) = selectedCategory (watchEffect st2)).
Proof.
  assert (Hout : forall st : AppState,
            (forall fc : FilteredCategory,
               fc ∈ filteredCategories (categories st) (searchQuery st) ->
               category fc <> selectedCategory st) ->
            selectedCategory st ∉ visibleNames st).
  { intros st Hnone Hin. apply list_elem_of_fmap in Hin as (fc & Hname & Hfc).
    exact (Hnone fc Hfc (eq_sym Hname)). }
  assert (Hrepl : forall st : AppState,
            (forall fc : FilteredCategory,
               fc ∈ filteredCategories (categories st) (searchQuery st) ->
               category fc <> selectedCategory st) ->
            selectedCategory (watchEffect st) =
              match filteredCategories (categories st) (searchQuery st) with
              | [] => ""
              | fc :: _ => category fc
              end).
  { intros st Hnone. rewrite (watchEffect_replaces st (Hout st Hnone)). simpl.
    unfold visibleNames.
    destruct (filteredCategories (categories st) (searchQuery st)); reflexivity. }
  split; [|split; [|split; [|split]]].
  - intros pre mid post c1 c2 query selected Hq Hc1 _ Hpre.
    rewrite (displayMetrics_no_query (mkState _ query selected)) by exact Hq.
    simpl. rewrite (find_first_named pre _ c1 selected Hc1 Hpre). reflexivity.
  - intros st fc Hfc Hname. rewrite watchEffect_keeps; [reflexivity|].
    apply list_elem_of_fmap. exists fc. split; [symmetry; exact Hname|exact Hfc].
  - exact Hrepl.
  - intros st fc Hfc _ Hnone. rewrite (Hrepl st Hnone).
    destruct (filteredCategories (categories st) (searchQuery st)) as [|fc0 rest].
    + inversion Hfc.
    + apply (Hnone fc0). left.
  - intros st1 st2 Hnames Hsel.
    destruct (decide (selectedCategory st1 ∈ visibleNames st1)) as [Hin|Hno].
    + rewrite (watchEffect_keeps st1 Hin).
      rewrite Hnames, Hsel in Hin. rewrite (watchEffect_keeps st2 Hin). exact Hsel.
    + rewrite (watchEffect_replaces st1 Hno).
      rewrite Hnames, Hsel in Hno. rewrite (watchEffect_replaces st2 Hno).
      simpl. rewrite Hnames. reflexivity.
Qed.

(** ** Detail rows *)

Section Trim.

Lemma allChars_impl (p q : ascii -> bool) (s : string) :
  (forall c, p c = true -> q c = true) -> allChars p s = true -> allChars q s = true.
Proof.
  intros Hpq. induction s as [|c s IH]; simpl; [reflexivity|].
  intros [Hc Hs]%andb_true_iff. rewrite (Hpq c Hc), (IH Hs). reflexivity.
Qed.

Lemma digit_notWhiteSpace (c : ascii) : isDigit c = true -> notWhiteSpace c = true.
Proof. ascii_cases c; intros H; try discriminate H; reflexivity. Qed.

Lemma trimStart_solid (s : string) :
  allChars notWhiteSpace s = true -> Str.trimStart s = s.
Proof.
  destruct s as [|c s]; simpl; [reflexivity|].
  intros [Hc _]%andb_true_iff. unfold notWhiteSpace in Hc.
  apply negb_true_iff in Hc. rewrite Hc. reflexivity.
Qed.

Lemma trimEnd_solid (s : string) :
  allChars notWhiteSpace s = true -> Str.trimEnd s = s.
Proof.
  induction s as [|c s IH]; simpl; [reflexivity|].
  intros [Hc Hs]%andb_true_iff. rewrite (IH Hs).
  unfold notWhiteSpace in Hc. apply negb_true_iff in Hc.
  destruct s; [rewrite Hc|]; reflexivity.
Qed.

Lemma trim_solid (s : string) : allChars notWhiteSpace s = true -> Str.trim s = s.
Proof.
  intros Hs. unfold Str.trim. rewrite (trimStart_solid s Hs). apply trimEnd_solid, Hs.
Qed.

Lemma pretty_Z_solid (z : Z) : allChars notWhiteSpace (pretty z) = true.
Proof.
  destruct z as [|p|p]; [reflexivity| |].
  - apply (allChars_impl isDigit), (pretty_N_digits (Npos p)). apply digit_notWhiteSpace.
  - change (pretty (Z.neg p)) with (String "-" (pretty (Npos p))).
    simpl. apply (allChars_impl isDigit), pretty_N_digits. apply digit_notWhiteSpace.
Qed.

Lemma detailValue_trim (raw : JsVal) : detailValue raw = Str.trim (fieldText raw).
Proof.
  destruct raw as [| |s|[]|z safe]; try reflexivity.
  unfold detailValue, fieldText. simpl. symmetry. apply trim_solid, pretty_Z_solid.
Qed.

End Trim.

Section Details.

Variable m : Metric.

Lemma placeholder_test (v : string) :
  negb (Str.truthy v) || String.eqb v "-" || String.eqb (Str.toLowerCase v) "null" = true
  <-> placeholder v.
Proof.
  unfold placeholder.
  rewrite !orb_true_iff, negb_true_iff, truthy_false, !String.eqb_eq. tauto.
Qed.

Lemma detailStep_cases (details : list MetricDetail) (f : MetricField) :
  detailStep m details f =
  if decide (shownField m f) then details ++ [detailRow m f] else details.
Proof.
  unfold detailStep, shownField, detailRow. rewrite detailValue_trim.
  pose proof (placeholder_test (Str.trim (fieldText (getField m f)))) as Htest.
  destruct (negb _ || _ || _); destruct (decide _) as [Hs|Hs]; try reflexivity.
  - exfalso. apply Hs, Htest. reflexivity.
  - exfalso. apply Hs. intros Hp. apply Htest in Hp. discriminate Hp.
Qed.

Lemma fold_detailStep (fs : list MetricField) (details : list MetricDetail) :
  fold_left (detailStep m) fs details = details ++ (detailRow m <$> filter (shownField m) fs).
Proof.
  revert details. induction fs as [|f fs IH]; intros details; simpl.
  - rewrite app_nil_r. reflexivity.
  - rewrite IH, detailStep_cases, filter_cons.
    destruct (decide (shownField m f)); [|reflexivity].
    rewrite fmap_cons, <- app_assoc. reflexivity.
Qed.

Lemma metricDetails_rows :
  metricDetails m = detailRow m <$> filter (shownField m) detailFields.
Proof. unfold metricDetails. rewrite fold_detailStep. reflexivity. Qed.

Lemma metricDetails_elem (d : MetricDetail) :
  d ∈ metricDetails m <-> exists f, d = detailRow m f /\ shownField m f /\ f ∈ detailFields.
Proof.
  rewrite metricDetails_rows, list_elem_of_fmap.
  split; intros (f & Hd & Hf); exists f.
  - apply list_elem_of_filter in Hf. tauto.
  - split; [tauto|]. apply list_elem_of_filter. tauto.
Qed.

Lemma fieldName_inj (f g : MetricField) : fieldName f = fieldName g -> f = g.
Proof. destruct f, g; intros H; try reflexivity; discriminate H. Qed.

(** A field whose trimmed text is a placeholder gets no row. *)
Lemma metricDetails_hidden (f : MetricField) (d : MetricDetail) :
  placeholder (Str.trim (fieldText (getField m f))) ->
  d ∈ metricDetails m -> field d <> fieldName f.
Proof.
  intros Hp Hd Hname. apply metricDetails_elem in Hd as (g & -> & Hshown & _).
  simpl in Hname. apply fieldName_inj in Hname as ->. exact (Hshown Hp).
Qed.

End Details.

(** C7.  [metricDetails] goes through ReportPeriod, Target, Comment,
    Contributor, Source in that order and gives a row for a field exactly
    when the trimmed text of its value is not empty, not ["-"] and not
    ["null"] in any letter case; a row carries the field's name, the
    trimmed text and the icon the fixed table gives the name.  So a Target
    of ["-"], a Comment of ["null"] and a Source of two spaces get no row,
    and a Target of ["95%"] gets the row Target, 95%, bullseye. *)
Theorem metricDetails_spec (m : Metric) :
  let text f := Str.trim (fieldText (getField m f)) in
  metricDetails m =
    (fun f => {| field := fieldName f; value := text f; icon := iconFieldMap !! fieldName f |})
      <$> filter (fun f => ~ (text f = "" \/ text f = "-" \/ Str.toLowerCase (text f) = "null"))
                 [FReportPeriod; FTarget; FComment; FContributor; FSource] /\
  (iconFieldMap !! "ReportPeriod" = Some "repeat" /\
   iconFieldMap !! "Target" = Some "bullseye" /\
   iconFieldMap !! "Comment" = Some "comment" /\
   iconFieldMap !! "Contributor" = Some "user" /\
   iconFieldMap !! "Source" = Some "arrow-up-right-from-square") /\
  (Target m = JStr "-" -> forall d, d ∈ metricDetails m -> field d <> "Target") /\
  (Comment m = JStr "null" -> forall d, d ∈ metricDetails m -> field d <> "Comment") /\
  (Source m = JStr "  " -> forall d, d ∈ metricDetails m -> field d <> "Source") /\
  (Target m = JStr "95%" ->
   {| field := "Target"; value := "95%"; icon := Some "bullseye" |} ∈ metricDetails m).
Proof.
  intros text. split; [apply metricDetails_rows|].
  split; [repeat split; vm_compute; reflexivity|].
  split; [|split; [|split]].
  - intros H d. apply (metricDetails_hidden m FTarget). simpl. rewrite H.
    right; left; reflexivity.
  - intros H d. apply (metricDetails_hidden m FComment). simpl. rewrite H.
    right; right; reflexivity.
  - intros H d. apply (metricDetails_hidden m FSource). simpl. rewrite H.
    left; reflexivity.
  - intros H. apply metricDetails_elem. exists FTarget.
    unfold detailRow, shownField. simpl. rewrite H.
    split; [vm_compute; reflexivity|].
    split; [|unfold detailFields; set_solver].
    intros [Hp|[Hp|Hp]]; discriminate Hp.
Qed.

(** ** The scenarios of the specification *)

Section Scenarios.

Example scenario_loaded :
  (fun c => (slug c, count c, id <$> items c)) <$> scenarioCatalog =
  [ ("governance", 2, ["governance-0"; "governance-1"]);
    ("incident-response", 1, ["incident-response-0"]);
    ("threat-hunting", 0, []) ].
Proof. vm_compute. reflexivity. Qed.

Example scenario_no_query :
  MetricTitle <$> displayMetrics (mkState scenarioCatalog "" "Governance") =
  [JStr "Board Reporting Cadence"; JStr "Policy Review Rate"] /\
  nameCounts (filteredCategories scenarioCatalog "") =
  [("Governance", 2); ("Incident Response", 1)].
Proof. split; vm_compute; reflexivity. Qed.

Example scenario_contain :
  MetricTitle <$> displayMetrics (mkState scenarioCatalog "contain" "Governance") =
  [JStr "Mean Time to Contain"] /\
  MetricTitle <$> displayMetrics (mkState scenarioCatalog " Contain  " "Threat Hunting") =
  [JStr "Mean Time to Contain"] /\
  nameCounts (filteredCategories scenarioCatalog "contain") = [("Incident Response", 1)] /\
  selectedCategory (watchEffect (mkState scenarioCatalog "contain" "Governance")) =
  "Incident Response".
Proof. repeat split; vm_compute; reflexivity. Qed.

Example scenario_no_match :
  displayMetrics (mkState scenarioCatalog "zzz-no-match" "Governance") = [] /\
  filteredCategories scenarioCatalog "zzz-no-match" = [] /\
  selectedCategory (watchEffect (mkState scenarioCatalog "zzz-no-match" "Governance")) = "".
Proof. repeat split; vm_compute; reflexivity. Qed.

(** P5: the selection leaves a category that the query filters out. *)
Example scenario_reconciliation :
  nameCounts (filteredCategories scenarioCatalog "policy") = [("Governance", 1)] /\
  selectedCategory (watchEffect (mkState scenarioCatalog "policy" "Incident Response")) =
  "Governance".
Proof. split; vm_compute; reflexivity. Qed.

(** P4: the letter case of the query plays no part. *)
Example scenario_case (m : Metric) :
  matchesSearch m "PHISH" = matchesSearch m "phish" /\
  matchesSearch m "PhIsH" = matchesSearch m "phish".
Proof. split; reflexivity. Qed.

Example twin_first_only :
  slug <$> twinCatalog = ["one"; "two"] /\
  id <$> displayMetrics (mkState twinCatalog "" "Shared") = ["one-0"] /\
  selectedCategory (watchEffect (mkState twinCatalog "backup" "Shared")) = "Shared".
Proof. repeat split; vm_compute; reflexivity. Qed.

(** A selection that is a slug and no display name is replaced. *)
Example twin_slug_is_no_name :
  selectedCategory (watchEffect (mkState twinCatalog "" "two")) = "Shared" /\
  displayMetrics (mkState twinCatalog "" "two") = [].
Proof. split; vm_compute; reflexivity. Qed.

(** P6 on one record. *)
Example details_of_record :
  metricDetails
    {| id := "governance-0"; Category := JStr "Governance"; SubCategory := JNull;
       MetricTitle := JStr "Policy Review Rate"; MetricDescription := JStr "";
       ReportPeriod := JStr " Quarterly "; Target := JStr "-"; Comment := JStr "NULL";
       Contributor := JStr "Jane Doe"; Source := JStr "  " |} =
  [ {| field := "ReportPeriod"; value := "Quarterly"; icon := Some "repeat" |};
    {| field := "Contributor"; value := "Jane Doe"; icon := Some "user" |} ].
Proof. vm_compute. reflexivity. Qed.

End Scenarios.

(** * Further properties of the engine *)

(** ** The two branches of [filteredCategories] *)

Section Branches.

Lemma filter_map_swap {A B : Type} (f : B -> bool) (g : A -> B) (l : list A) :
  List.filter f (map g l) = map g (List.filter (fun a => f (g a)) l).
Proof.
  induction l as [|a l IH]; simpl; [reflexivity|].
  destruct (f (g a)); simpl; rewrite IH; reflexivity.
Qed.

Lemma filteredCategories_blank (catalog : list CategoryEntry) (searchQuery : string) :
  Str.trim searchQuery = "" ->
  filteredCategories catalog searchQuery =
  map (fun c => {| entry := c; matchCount := count c |})
      (List.filter (fun c => 0 <? count c) catalog).
Proof.
  intros Hq. unfold filteredCategories. rewrite Hq.
  rewrite filter_map_swap. reflexivity.
Qed.

Lemma filteredCategories_query (catalog : list CategoryEntry) (searchQuery : string) :
  Str.trim searchQuery <> "" ->
  filteredCategories catalog searchQuery =
  map (fun c => {| entry := c; matchCount := matchCountOf (Str.trim searchQuery) c |})
      (List.filter (fun c => 0 <? matchCountOf (Str.trim searchQuery) c) catalog).
Proof.
  intros Hq. apply truthy_true in Hq. unfold filteredCategories.
  rewrite toLowerCase_truthy, Hq, filter_map_swap. simpl.
  erewrite filter_ext; [apply map_ext|]; intros c;
    fold (matchCountOf (Str.toLowerCase (Str.trim searchQuery)) c);
    rewrite matchCountOf_lower; reflexivity.
Qed.

Lemma filteredCategories_entries (catalog : list CategoryEntry) (searchQuery : string) :
  entry <$> filteredCategories catalog searchQuery `sublist_of` catalog.
Proof.
  unfold filteredCategories. rewrite filter_map_swap.
  change (entry <$> map ?g ?l) with (entry <$> (g <$> l)).
  rewrite <- list_fmap_compose. simpl.
  match goal with |- _ <$> List.filter ?p _ `sublist_of` _ => generalize p end.
  intros p. induction catalog as [|c l IH]; simpl; [constructor|].
  destruct (p c); simpl; [apply sublist_skip|apply sublist_cons]; exact IH.
Qed.

Lemma countsItems_positive (c : CategoryEntry) :
  countsItems c -> (0 < count c <-> items c <> []).
Proof.
  unfold countsItems. intros ->. destruct (items c); simpl; split; intros H; try lia; congruence.
Qed.

Lemma matchCountOf_positive (q : string) (c : CategoryEntry) :
  0 < matchCountOf q c -> items c <> [].
Proof. intros Hpos Hnil. rewrite (matchCountOf_nil q c Hnil) in Hpos. lia. Qed.

End Branches.

(** ** Reconciliation settles *)

(** X1.  Running the effect a second time changes nothing: one run brings
    the selection to rest, so the effect, which runs again whenever it has
    written the selection, stops after that run. *)
Theorem watchEffect_idempotent (st : AppState) :
  watchEffect (watchEffect st) = watchEffect st.
Proof.
  destruct (decide (selectedCategory st ∈ visibleNames st)) as [Hin|Hout].
  - rewrite (watchEffect_keeps st Hin). apply watchEffect_keeps, Hin.
  - rewrite (watchEffect_replaces st Hout).
    destruct (visibleNames st) as [|name rest] eqn:Hnames; simpl.
    + rewrite watchEffect_replaces.
      * simpl. change (visibleNames _) with (visibleNames st). rewrite Hnames. reflexivity.
      * change (visibleNames _) with (visibleNames st). rewrite Hnames. simpl.
        apply not_elem_of_nil.
    + apply watchEffect_keeps.
      change (visibleNames _) with (visibleNames st). rewrite Hnames. simpl. left.
Qed.

(** ** Keys of the rendered lists *)

Section Keys.

Lemma List_filter_sublist {A : Type} (p : A -> bool) (l : list A) :
  List.filter p l `sublist_of` l.
Proof.
  induction l as [|a l IH]; simpl; [constructor|].
  destruct (p a); [apply sublist_skip|apply sublist_cons]; exact IH.
Qed.

Lemma items_sublist_allMetrics (catalog : list CategoryEntry) (c : CategoryEntry) :
  In c catalog -> items c `sublist_of` allMetrics catalog.
Proof.
  intros Hin. apply in_split in Hin as (l1 & l2 & ->).
  unfold allMetrics. rewrite flat_map_app. simpl.
  apply sublist_inserts_l, sublist_inserts_r. reflexivity.
Qed.

Lemma displayMetrics_sublist (st : AppState) :
  displayMetrics st `sublist_of` allMetrics (categories st).
Proof.
  unfold displayMetrics. destruct (Str.truthy _).
  - apply List_filter_sublist.
  - destruct (List.find _ _) as [c|] eqn:Hfind; simpl.
    + apply find_some in Hfind as [Hin _]. apply items_sublist_allMetrics, Hin.
    + apply sublist_nil_l.
Qed.

Lemma allMetrics_ids_NoDup (metricsIndex : list Meta.CategoryMeta)
    (modules : gmap string JsonModule) :
  NoDup (Meta.slug <$> metricsIndex) ->
  NoDup (id <$> allMetrics (initialCategories metricsIndex modules)).
Proof.
  induction metricsIndex as [|meta rest IH]; simpl; intros Hslugs.
  - constructor.
  - apply NoDup_cons in Hslugs as [Hfresh Hrest].
    rewrite fmap_app. apply NoDup_app.
    split; [apply loadCategory_ids_NoDup|]. split; [|exact (IH Hrest)].
    intros x Hx Hx'.
    apply list_elem_of_fmap in Hx as (m & -> & Hm).
    apply list_elem_of_lookup in Hm as [i Hi].
    apply loadCategory_lookup in Hi as [raw ->].
    apply allMetrics_ids_slug in Hx' as (meta' & raw' & j & Hin & Heq).
    apply hydrateMetric_id_inj in Heq as [Heq _].
    apply Hfresh. rewrite Heq. apply list_elem_of_fmap. exists meta'. auto.
Qed.

Lemma initialCategories_slugs (metricsIndex : list Meta.CategoryMeta)
    (modules : gmap string JsonModule) :
  slug <$> initialCategories metricsIndex modules = Meta.slug <$> metricsIndex.
Proof.
  unfold initialCategories. induction metricsIndex as [|meta rest IH]; simpl;
    [reflexivity|]. f_equal. exact IH.
Qed.

End Keys.

(** X2.  In a catalog loaded from a manifest of pairwise distinct slugs,
    the records shown carry pairwise distinct identifiers, whatever the
    query and the selection: the keys of the cards never collide. *)
Theorem displayMetrics_keys_distinct (metricsIndex : list Meta.CategoryMeta)
    (modules : gmap string JsonModule) (query selected : string) :
  NoDup (Meta.slug <$> metricsIndex) ->
  NoDup (id <$> displayMetrics
                  (mkState (initialCategories metricsIndex modules) query selected)).
Proof.
  intros Hslugs.
  eapply sublist_NoDup; [apply (allMetrics_ids_NoDup metricsIndex modules Hslugs)|].
  apply fmap_sublist.
  apply (displayMetrics_sublist (mkState (initialCategories metricsIndex modules) query selected)).
Qed.

Lemma displayMetrics_keys_distinct_witness :
  NoDup (Meta.slug <$> scenarioIndex) /\
  NoDup (id <$> displayMetrics (mkState scenarioCatalog "re" "Governance")).
Proof.
  assert (Hslugs : NoDup (Meta.slug <$> scenarioIndex)).
  { apply (bool_decide_unpack _). vm_compute. reflexivity. }
  split; [exact Hslugs|].
  exact (displayMetrics_keys_distinct scenarioIndex scenarioModules "re" "Governance" Hslugs).
Defined.

(** X3.  In such a catalog the visible categories carry pairwise distinct
    slugs, for every query: the keys of the sidebar entries and of the
    options of the select box never collide. *)
Theorem filteredCategories_keys_distinct (metricsIndex : list Meta.CategoryMeta)
    (modules : gmap string JsonModule) (query : string) :
  NoDup (Meta.slug <$> metricsIndex) ->
  NoDup ((fun fc : FilteredCategory => slug fc)
           <$> filteredCategories (initialCategories metricsIndex modules) query).
Proof.
  intros Hslugs.
  rewrite <- (initialCategories_slugs metricsIndex modules) in Hslugs.
  eapply sublist_NoDup; [exact Hslugs|].
  change (fun fc : FilteredCategory => slug fc) with (slug ∘ entry).
  rewrite list_fmap_compose. apply fmap_sublist, filteredCategories_entries.
Qed.

Lemma filteredCategories_keys_distinct_witness :
  NoDup (Meta.slug <$> scenarioIndex) /\
  NoDup ((fun fc : FilteredCategory => slug fc) <$> filteredCategories scenarioCatalog "").
Proof.
  assert (Hslugs : NoDup (Meta.slug <$> scenarioIndex)).
  { apply (bool_decide_unpack _). vm_compute. reflexivity. }
  split; [exact Hslugs|].
  exact (filteredCategories_keys_distinct scenarioIndex scenarioModules "" Hslugs).
Defined.

(** ** Queries that contain one another *)

Section Narrowing.

Lemma append_assoc (a b c : string) : (a +:+ b) +:+ c = a +:+ (b +:+ c).
Proof.
  induction a as [|x a IH]; [reflexivity|].
  rewrite !append_cons, IH. reflexivity.
Qed.

Lemma toLowerCase_append (a b : string) :
  Str.toLowerCase (a +:+ b) = Str.toLowerCase a +:+ Str.toLowerCase b.
Proof.
  induction a as [|x a IH]; [reflexivity|].
  rewrite append_cons. simpl. rewrite IH, append_cons. reflexivity.
Qed.

Lemma Substring_trans (a b c : string) : Substring a b -> Substring b c -> Substring a c.
Proof.
  intros (p1 & s1 & ->) (p2 & s2 & ->).
  exists (p2 +:+ p1), (s1 +:+ s2). rewrite !append_assoc. reflexivity.
Qed.

Lemma Substring_toLowerCase (a b : string) :
  Substring a b -> Substring (Str.toLowerCase a) (Str.toLowerCase b).
Proof.
  intros (p & s & ->). exists (Str.toLowerCase p), (Str.toLowerCase s).
  rewrite !toLowerCase_append. reflexivity.
Qed.

Lemma Substring_empty (a : string) : Substring a "" -> a = "".
Proof.
  intros ([|x p] & s & H); [|discriminate H].
  destruct a; [reflexivity|discriminate H].
Qed.

(** A record that a query finds is found by every query contained in it. *)
Lemma matchesSearch_substring (m : Metric) (q q' : string) :
  Substring (Str.toLowerCase q') (Str.toLowerCase q) ->
  matchesSearch m q = true -> matchesSearch m q' = true.
Proof.
  intros Hsub Hm. unfold matchesSearch in *.
  destruct (Str.truthy q') eqn:Hq'; [|reflexivity].
  destruct (Str.truthy q) eqn:Hq; cbn [negb] in *.
  - apply existsb_exists in Hm as (f & Hf & Hinc).
    apply existsb_exists. exists f. split; [exact Hf|].
    apply includes_spec. apply includes_spec in Hinc.
    exact (Substring_trans _ _ _ Hsub Hinc).
  - apply truthy_false in Hq. subst q. apply Substring_empty in Hsub.
    rewrite <- toLowerCase_truthy, Hsub in Hq'. discriminate Hq'.
Qed.

Lemma List_filter_sublist_impl {A : Type} (p p' : A -> bool) (l : list A) :
  (forall a, In a l -> p a = true -> p' a = true) ->
  List.filter p l `sublist_of` List.filter p' l.
Proof.
  induction l as [|a l IH]; intros Himp; simpl; [constructor|].
  assert (Hl : List.filter p l `sublist_of` List.filter p' l).
  { apply IH. intros b Hb. apply Himp. right. exact Hb. }
  destruct (p a) eqn:Hpa.
  - rewrite (Himp a (or_introl eq_refl) Hpa). apply sublist_skip, Hl.
  - destruct (p' a); [apply sublist_cons|]; exact Hl.
Qed.

Lemma matchCountOf_substring (c : CategoryEntry) (q q' : string) :
  Substring (Str.toLowerCase q') (Str.toLowerCase q) ->
  matchCountOf q c <= matchCountOf q' c.
Proof.
  intros Hsub. unfold matchCountOf. apply inj_le, sublist_length.
  apply List_filter_sublist_impl. intros m _. apply matchesSearch_substring, Hsub.
Qed.

Lemma fmap_entry_map (mc : CategoryEntry -> Z) (l : list CategoryEntry) :
  entry <$> map (fun c => {| entry := c; matchCount := mc c |}) l = l.
Proof. induction l as [|c l IH]; simpl; [reflexivity|]. f_equal. exact IH. Qed.

End Narrowing.

(** X4.  The search is insensitive to the letter case of the query, and a
    record that a query finds is found by every query that the first one
    contains: shortening the query never loses a record. *)
Theorem matchesSearch_query_order (m : Metric) :
  (forall q1 q2 : string,
     Str.toLowerCase q1 = Str.toLowerCase q2 -> matchesSearch m q1 = matchesSearch m q2) /\
  (forall q q' : string,
     Substring (Str.toLowerCase q') (Str.toLowerCase q) ->
     matchesSearch m q = true -> matchesSearch m q' = true).
Proof.
  split.
  - intros q1 q2 Heq.
    rewrite <- (matchesSearch_lower m q1), <- (matchesSearch_lower m q2), Heq.
    reflexivity.
  - intros q q'. apply matchesSearch_substring.
Qed.

(** X5.  Any fragment of the text of one of the nine searched fields finds
    the record, in any letter case of the fragment and of the field. *)
Theorem matchesSearch_finds_fragment (m : Metric) (f : MetricField) (s fragment : string) :
  getField m f = JStr s ->
  Substring (Str.toLowerCase fragment) (Str.toLowerCase s) ->
  matchesSearch m fragment = true.
Proof.
  intros Hf Hsub. unfold matchesSearch.
  destruct (Str.truthy fragment); [|reflexivity]. cbn [negb].
  apply existsb_exists. exists f. split.
  - destruct f; unfold searchableFields; simpl; tauto.
  - apply includes_spec. rewrite Hf. exact Hsub.
Qed.

Lemma matchesSearch_finds_fragment_witness :
  matchesSearch (hydrateMetric bareRecord "governance" 0) "REVIEW rate" = true.
Proof.
  apply (matchesSearch_finds_fragment
           (hydrateMetric bareRecord "governance" 0) FMetricTitle "Policy Review Rate").
  - reflexivity.
  - exists "policy ", "". reflexivity.
Defined.

(** X6.  When a query contains another one and neither is blank, the
    records shown for the longer query are, in order, among those shown for
    the shorter one, and so are the visible categories, none of which has
    more matches than for the shorter query. *)
Theorem longer_query_narrows (catalog : list CategoryEntry) (q q' sel sel' : string) :
  Str.trim q <> "" ->
  Str.trim q' <> "" ->
  Substring (Str.toLowerCase (Str.trim q')) (Str.toLowerCase (Str.trim q)) ->
  displayMetrics (mkState catalog q sel) `sublist_of` displayMetrics (mkState catalog q' sel') /\
  entry <$> filteredCategories catalog q `sublist_of` entry <$> filteredCategories catalog q' /\
  (forall c : CategoryEntry,
     matchCountOf (Str.trim q) c <= matchCountOf (Str.trim q') c).
Proof.
  intros Hq Hq' Hsub. split; [|split].
  - rewrite (displayMetrics_query (mkState catalog q sel)) by exact Hq.
    rewrite (displayMetrics_query (mkState catalog q' sel')) by exact Hq'.
    simpl. apply List_filter_sublist_impl.
    intros m _. apply matchesSearch_substring, Hsub.
  - rewrite (filteredCategories_query catalog q Hq), (filteredCategories_query catalog q' Hq').
    rewrite !fmap_entry_map. apply List_filter_sublist_impl.
    intros c _ Hpos. apply Z.ltb_lt in Hpos. apply Z.ltb_lt.
    pose proof (matchCountOf_substring c _ _ Hsub). lia.
  - intros c. apply matchCountOf_substring, Hsub.
Qed.

Lemma longer_query_narrows_witness :
  displayMetrics (mkState scenarioCatalog "Review Rate" "Governance")
    `sublist_of` displayMetrics (mkState scenarioCatalog " re " "Threat Hunting") /\
  entry <$> filteredCategories scenarioCatalog "Review Rate"
    `sublist_of` entry <$> filteredCategories scenarioCatalog " re " /\
  (forall c : CategoryEntry,
     matchCountOf (Str.trim "Review Rate") c <= matchCountOf (Str.trim " re ") c).
Proof.
  apply (longer_query_narrows scenarioCatalog "Review Rate" " re " "Governance" "Threat Hunting").
  - discriminate.
  - discriminate.
  - exists "", "view rate". reflexivity.
Defined.

(** ** Numbers the template prints *)

Section Counts.

Lemma trim_of_falsy (s : string) : Str.truthy s = false -> Str.trim s = "".
Proof. intros H. apply truthy_false in H. subst s. reflexivity. Qed.

Lemma matchCountOf_nonneg (q : string) (c : CategoryEntry) : 0 <= matchCountOf q c.
Proof. unfold matchCountOf. lia. Qed.

Lemma sumZ_positive_part {A : Type} (f : A -> Z) (l : list A) :
  (forall a, 0 <= f a) ->
  sumZ (f <$> List.filter (fun a => 0 <? f a) l) = sumZ (f <$> l).
Proof.
  intros Hf. unfold sumZ. induction l as [|a l IH]; [reflexivity|].
  cbn [List.filter]. destruct (0 <? f a) eqn:Hpos.
  - rewrite !fmap_cons. cbn [foldr]. rewrite IH. reflexivity.
  - rewrite fmap_cons. cbn [foldr]. rewrite IH.
    apply Z.ltb_ge in Hpos. specialize (Hf a). lia.
Qed.

Lemma length_filter_concat (p : Metric -> bool) (catalog : list CategoryEntry) :
  Z.of_nat (length (List.filter p (concat (items <$> catalog)))) =
  sumZ ((fun c => Z.of_nat (length (List.filter p (items c)))) <$> catalog).
Proof.
  unfold sumZ. induction catalog as [|c l IH]; [reflexivity|].
  rewrite !fmap_cons. cbn [concat foldr].
  rewrite List.filter_app, length_app, Nat2Z.inj_add, IH. reflexivity.
Qed.

Lemma fmap_matchCount_map (mc : CategoryEntry -> Z) (l : list CategoryEntry) :
  (fun fc : FilteredCategory => matchCount fc)
    <$> map (fun c => {| entry := c; matchCount := mc c |}) l = mc <$> l.
Proof. induction l as [|c l IH]; simpl; [reflexivity|]. f_equal. exact IH. Qed.

End Counts.

(** X7.  While a query is active, the number of results the header prints
    is the sum of the numbers printed beside the visible categories. *)
Theorem results_total_is_sidebar_sum (catalog : list CategoryEntry) (query selected : string) :
  Str.trim query <> "" ->
  Z.of_nat (length (displayMetrics (mkState catalog query selected))) =
  sumZ (sidebarCount query <$> filteredCategories catalog query).
Proof.
  intros Hq.
  assert (Htruthy : Str.truthy query = true).
  { destruct (Str.truthy query) eqn:E; [reflexivity|].
    apply trim_of_falsy in E. contradiction. }
  rewrite (displayMetrics_query (mkState catalog query selected)) by exact Hq. simpl.
  rewrite length_filter_concat.
  change (fun c => Z.of_nat (length (List.filter _ (items c))))
    with (matchCountOf (Str.trim query)).
  rewrite (filteredCategories_query catalog query Hq).
  unfold sidebarCount. rewrite Htruthy.
  rewrite fmap_matchCount_map.
  symmetry. apply sumZ_positive_part. intros c. apply matchCountOf_nonneg.
Qed.

Lemma results_total_is_sidebar_sum_witness :
  Z.of_nat (length (displayMetrics (mkState scenarioCatalog "re" "Governance"))) =
  sumZ (sidebarCount "re" <$> filteredCategories scenarioCatalog "re").
Proof.
  apply (results_total_is_sidebar_sum scenarioCatalog "re" "Governance"). discriminate.
Defined.

(** X8.  The number printed beside a visible category is positive; it is
    the number of the category's records that match the trimmed query when
    that is non-empty, and the category's [count] otherwise, also for a
    query of white space only, which the template's own test takes for a
    query. *)
Theorem sidebarCount_of_visible (catalog : list CategoryEntry) (query : string)
    (fc : FilteredCategory) :
  fc ∈ filteredCategories catalog query ->
  0 < sidebarCount query fc /\
  (Str.trim query <> "" -> sidebarCount query fc = matchCountOf (Str.trim query) fc) /\
  (Str.trim query = "" -> sidebarCount query fc = count fc).
Proof.
  intros Hfc. destruct (filteredCategories_elem catalog query fc Hfc) as (_ & Hne & He).
  unfold sidebarCount. destruct (Str.truthy query) eqn:Htruthy.
  - destruct (decide (Str.trim query = "")) as [Hq|Hq].
    + destruct (He Hq) as [Hmc Hpos]. rewrite Hmc.
      split; [exact Hpos|]. split; [intros Hq'; contradiction | reflexivity].
    + destruct (Hne Hq) as [Hmc Hpos].
      split; [exact Hpos|]. split; [intros _; exact Hmc | intros Hq'; contradiction].
  - pose proof (trim_of_falsy query Htruthy) as Hq. destruct (He Hq) as [_ Hpos].
    split; [exact Hpos|]. split; [intros Hq'; contradiction | reflexivity].
Qed.

Lemma sidebarCount_of_visible_witness :
  0 < sidebarCount "  " {| entry := governanceEntry; matchCount := 2 |}.
Proof.
  refine (proj1 (sidebarCount_of_visible scenarioCatalog "  " _ _)).
  apply list_elem_of_In. vm_compute. left. reflexivity.
Defined.

(** ** Searching and clearing the search *)

Section Hiding.

Lemma visible_query_visible_blank (catalog : list CategoryEntry) (q : string) :
  Forall countsItems catalog ->
  entry <$> filteredCategories catalog q `sublist_of` entry <$> filteredCategories catalog "".
Proof.
  intros Hwf. rewrite (filteredCategories_blank catalog "" eq_refl).
  destruct (decide (Str.trim q = "")) as [Hq|Hq].
  - rewrite (filteredCategories_blank catalog q Hq). reflexivity.
  - rewrite (filteredCategories_query catalog q Hq), !fmap_entry_map.
    apply List_filter_sublist_impl. intros c Hc Hpos.
    apply Z.ltb_lt in Hpos. apply Z.ltb_lt.
    rewrite Forall_forall in Hwf. apply list_elem_of_In in Hc.
    apply (countsItems_positive c (Hwf c Hc)).
    exact (matchCountOf_positive _ c Hpos).
Qed.

Lemma visibleNames_compose (st : AppState) :
  visibleNames st = category <$> (entry <$> filteredCategories (categories st) (searchQuery st)).
Proof. unfold visibleNames. rewrite <- list_fmap_compose. reflexivity. Qed.

End Hiding.

(** X9.  In a catalog whose counts are the sizes of the item lists, a
    query only hides categories: those visible under a query are, in order,
    among those visible without one.  So clearing the search never moves a
    selection that was visible: the effect that runs after [clearSearch]
    leaves the state as [clearSearch] left it. *)
Theorem search_only_hides (ui : UiState) :
  let st := appState ui in
  Forall countsItems (categories st) ->
  entry <$> filteredCategories (categories st) (searchQuery st)
    `sublist_of` entry <$> filteredCategories (categories st) "" /\
  (selectedCategory st ∈ visibleNames st ->
   flushEffect (clearSearch ui) = clearSearch ui /\
   selectedCategory (appState (flushEffect (clearSearch ui))) = selectedCategory st).
Proof.
  intros st Hwf.
  pose proof (visible_query_visible_blank (categories st) (searchQuery st) Hwf) as Hsub.
  split; [exact Hsub|].
  intros Hin.
  assert (Hkeep : watchEffect (appState (clearSearch ui)) = appState (clearSearch ui)).
  { apply watchEffect_keeps. rewrite visibleNames_compose. simpl.
    rewrite visibleNames_compose in Hin.
    eapply elem_of_sublist; [exact Hin|]. apply fmap_sublist, Hsub. }
  unfold flushEffect. rewrite Hkeep. split; reflexivity.
Qed.

Lemma search_only_hides_witness :
  entry <$> filteredCategories scenarioCatalog "contain"
    `sublist_of` entry <$> filteredCategories scenarioCatalog "" /\
  ("Incident Response" ∈ visibleNames (mkState scenarioCatalog "contain" "Incident Response") ->
   flushEffect (clearSearch (mkUi (mkState scenarioCatalog "contain" "Incident Response") true))
   = clearSearch (mkUi (mkState scenarioCatalog "contain" "Incident Response") true) /\
   selectedCategory
     (appState (flushEffect
        (clearSearch (mkUi (mkState scenarioCatalog "contain" "Incident Response") true))))
   = "Incident Response").
Proof.
  exact (search_only_hides
           (mkUi (mkState scenarioCatalog "contain" "Incident Response") true)
           (initialCategories_countsItems scenarioIndex scenarioModules)).
Defined.

(** ** The count in the header *)

Section Header.

Lemma activeCategoryCount_blank (catalog : list CategoryEntry) (query selected : string) :
  Str.trim query = "" ->
  activeCategoryCount (mkState catalog query selected) =
  default 0 (count <$> List.find (fun c => (0 <? count c) && String.eqb (category c) selected)
                                 catalog).
Proof.
  intros Hq. unfold activeCategoryCount, activeCategorySummary. simpl.
  rewrite Hq, (filteredCategories_blank catalog query Hq). simpl.
  induction catalog as [|c l IH]; simpl; [reflexivity|].
  destruct (0 <? count c); simpl; [|exact IH].
  destruct (String.eqb (category c) selected); simpl; [reflexivity|exact IH].
Qed.

End Header.

(** X10.  In a catalog whose counts are the sizes of the item lists and
    whose display names are pairwise distinct, the count the header prints
    without a query is the number of records shown; with a query the
    summary is absent and the count is 0. *)
Theorem activeCategoryCount_is_shown (catalog : list CategoryEntry) (query selected : string) :
  Forall countsItems catalog ->
  NoDup (category <$> catalog) ->
  let st := mkState catalog query selected in
  (Str.trim query = "" -> activeCategoryCount st = Z.of_nat (length (displayMetrics st))) /\
  (Str.trim query <> "" -> activeCategorySummary st = None /\ activeCategoryCount st = 0).
Proof.
  intros Hwf Hnames st. split.
  - intros Hq. unfold st.
    rewrite (activeCategoryCount_blank catalog query selected Hq).
    rewrite (displayMetrics_no_query (mkState catalog query selected)) by exact Hq. simpl.
    induction catalog as [|c l IH]; simpl; [reflexivity|].
    apply Forall_cons in Hwf as [Hc Hwf].
    rewrite fmap_cons in Hnames. apply NoDup_cons in Hnames as [Hfresh Hnames].
    destruct (String.eqb (category c) selected) eqn:Hname.
    + destruct (0 <? count c) eqn:Hpos; simpl; [exact Hc|].
      apply String.eqb_eq in Hname.
      assert (Hnone : Forall (fun c' => category c' <> selected) l).
      { apply Forall_forall. intros c' Hc' Heq. apply Hfresh.
        rewrite Hname, <- Heq. apply list_elem_of_fmap. exists c'. auto. }
      assert (Hfind : List.find (fun c' => (0 <? count c') && String.eqb (category c') selected) l
                      = None).
      { clear -Hnone. induction Hnone as [|c' l Hne _ IH]; simpl; [reflexivity|].
        apply String.eqb_neq in Hne. rewrite Hne, andb_false_r. exact IH. }
      rewrite Hfind. simpl. apply Z.ltb_ge in Hpos. unfold countsItems in Hc. lia.
    + rewrite andb_false_r. exact (IH Hwf Hnames).
  - intros Hq. apply truthy_true in Hq.
    unfold activeCategoryCount, activeCategorySummary, st. simpl. rewrite Hq.
    split; reflexivity.
Qed.

Lemma activeCategoryCount_is_shown_witness :
  (Str.trim "" = "" ->
   activeCategoryCount (mkState scenarioCatalog "" "Governance") =
   Z.of_nat (length (displayMetrics (mkState scenarioCatalog "" "Governance")))) /\
  (Str.trim "" <> "" ->
   activeCategorySummary (mkState scenarioCatalog "" "Governance") = None /\
   activeCategoryCount (mkState scenarioCatalog "" "Governance") = 0).
Proof.
  apply (activeCategoryCount_is_shown scenarioCatalog "" "Governance").
  - exact (initialCategories_countsItems scenarioIndex scenarioModules).
  - apply (bool_decide_unpack _). vm_compute. reflexivity.
Defined.

(** ** The selection at start-up and after a click *)

Section Startup.

Lemma initialCategories_names (metricsIndex : list Meta.CategoryMeta)
    (modules : gmap string JsonModule) :
  category <$> initialCategories metricsIndex modules = Meta.category <$> metricsIndex.
Proof.
  unfold initialCategories. induction metricsIndex as [|meta rest IH]; simpl;
    [reflexivity|]. f_equal. exact IH.
Qed.

Lemma visibleNames_blank (catalog : list CategoryEntry) (query selected : string) :
  Str.trim query = "" ->
  visibleNames (mkState catalog query selected) =
  category <$> List.filter (fun c => 0 <? count c) catalog.
Proof.
  intros Hq. rewrite visibleNames_compose. simpl.
  rewrite (filteredCategories_blank catalog query Hq), fmap_entry_map. reflexivity.
Qed.

Lemma filter_positive_none (l : list CategoryEntry) :
  Forall countsItems l -> Forall (fun c => items c = []) l ->
  List.filter (fun c => 0 <? count c) l = [].
Proof.
  intros Hwf Hempty. induction Hempty as [|c l Hc _ IH]; simpl; [reflexivity|].
  apply Forall_cons in Hwf as [Hcount Hwf].
  unfold countsItems in Hcount. rewrite Hcount, Hc. simpl. exact (IH Hwf).
Qed.

Lemma filter_positive_first (pre post : list CategoryEntry) (c : CategoryEntry) :
  Forall countsItems (pre ++ c :: post) ->
  Forall (fun c' => items c' = []) pre ->
  items c <> [] ->
  List.filter (fun c' => 0 <? count c') (pre ++ c :: post) =
  c :: List.filter (fun c' => 0 <? count c') post.
Proof.
  intros Hwf Hpre Hc. apply Forall_app in Hwf as [Hwfpre Hwf].
  apply Forall_cons in Hwf as [Hcount _].
  rewrite List.filter_app, (filter_positive_none pre Hwfpre Hpre). simpl.
  apply (countsItems_positive c Hcount), Z.ltb_lt in Hc. rewrite Hc. reflexivity.
Qed.

Lemma names_before_differ (pre post : list CategoryEntry) (c : CategoryEntry) :
  NoDup (category <$> (pre ++ c :: post)) ->
  Forall (fun c' => category c' <> category c) pre.
Proof.
  rewrite fmap_app, fmap_cons. intros Hnd.
  apply NoDup_app in Hnd as (_ & Hdisj & _).
  apply Forall_forall. intros c' Hc' Heq.
  apply (Hdisj (category c')); [apply list_elem_of_fmap; exists c'; auto|].
  rewrite Heq. left.
Qed.

End Startup.

(** X11.  Start-up, for a manifest of pairwise distinct display names:
    once the effect has run on the initial refs, the selection is the name
    of the first category that has a record and the records shown are that
    category's, also when categories without records stand before it; when
    no category has a record the selection is empty and nothing is shown. *)
Theorem initial_selection (metricsIndex : list Meta.CategoryMeta)
    (modules : gmap string JsonModule) :
  NoDup (Meta.category <$> metricsIndex) ->
  let catalog := initialCategories metricsIndex modules in
  let st := appState (flushEffect (initialState metricsIndex modules)) in
  (forall (pre post : list CategoryEntry) (c : CategoryEntry),
     catalog = pre ++ c :: post ->
     Forall (fun c' => items c' = []) pre ->
     items c <> [] ->
     selectedCategory st = category c /\ displayMetrics st = items c) /\
  (Forall (fun c' => items c' = []) catalog ->
   selectedCategory st = "" /\ displayMetrics st = []).
Proof.
  intros Hnames catalog st.
  rewrite <- (initialCategories_names metricsIndex modules) in Hnames. fold catalog in Hnames.
  pose proof (initialCategories_countsItems metricsIndex modules) as Hwf. fold catalog in Hwf.
  set (st0 := mkState catalog "" (default "" (category <$> head catalog))).
  assert (Hst : st = watchEffect st0) by reflexivity.
  assert (Hvis : visibleNames st0 = category <$> List.filter (fun c => 0 <? count c) catalog)
    by (apply visibleNames_blank; reflexivity).
  clearbody catalog. split.
  - intros pre post c -> Hpre Hc.
    rewrite (filter_positive_first pre post c Hwf Hpre Hc), fmap_cons in Hvis.
    pose proof (names_before_differ pre post c Hnames) as Hdiff.
    assert (Hsel : selectedCategory st = category c).
    { rewrite Hst. destruct pre as [|p pre].
      - rewrite watchEffect_keeps; [reflexivity|]. rewrite Hvis. simpl. left.
      - rewrite watchEffect_replaces; [simpl; rewrite Hvis; reflexivity|].
        rewrite Hvis. simpl. intros Hin.
        rewrite <- app_comm_cons, fmap_cons in Hnames.
        apply NoDup_cons in Hnames as [Hfresh _]. apply Hfresh.
        rewrite fmap_app, fmap_cons. apply elem_of_app. right.
        apply elem_of_cons in Hin as [Heq|Hin]; [rewrite Heq; left|right].
        eapply elem_of_sublist; [exact Hin|].
        apply fmap_sublist, List_filter_sublist. }
    split; [exact Hsel|].
    assert (Hshape : st = mkState (pre ++ c :: post) "" (selectedCategory st)).
    { rewrite Hst. unfold watchEffect. destruct (negb _); reflexivity. }
    rewrite Hshape, Hsel.
    rewrite (displayMetrics_no_query (mkState (pre ++ c :: post) "" (category c))) by reflexivity.
    simpl. rewrite (find_first_named pre post c (category c) eq_refl Hdiff). reflexivity.
  - intros Hempty.
    rewrite (filter_positive_none catalog Hwf Hempty) in Hvis. simpl in Hvis.
    assert (Hrepl : st = mkState catalog "" "").
    { rewrite Hst, watchEffect_replaces; [rewrite Hvis; reflexivity|].
      rewrite Hvis. apply not_elem_of_nil. }
    rewrite Hrepl. split; [reflexivity|].
    rewrite (displayMetrics_no_query (mkState catalog "" "")) by reflexivity. simpl.
    destruct (List.find _ catalog) as [c|] eqn:Hfind; simpl; [|reflexivity].
    apply find_some in Hfind as [Hin _]. rewrite Forall_forall in Hempty.
    apply Hempty, list_elem_of_In, Hin.
Qed.

Lemma initial_selection_witness :
  NoDup (Meta.category <$> lateIndex) /\
  selectedCategory (appState (initialState lateIndex scenarioModules)) = "Threat Hunting" /\
  selectedCategory (appState (flushEffect (initialState lateIndex scenarioModules)))
  = "Governance" /\
  displayMetrics (appState (flushEffect (initialState lateIndex scenarioModules)))
  = items governanceEntry.
Proof.
  assert (Hnames : NoDup (Meta.category <$> lateIndex)).
  { apply (bool_decide_unpack _). vm_compute. reflexivity. }
  split; [exact Hnames|]. split; [reflexivity|].
  refine (proj1 (initial_selection lateIndex scenarioModules Hnames)
            (take 1 (initialCategories lateIndex scenarioModules))
            (drop 2 (initialCategories lateIndex scenarioModules))
            governanceEntry _ _ _).
  - vm_compute. reflexivity.
  - vm_compute. repeat constructor.
  - vm_compute. discriminate.
Defined.

(** X12.  A click on an entry of the sidebar selects a visible name, so the
    effect that runs after [selectCategory] keeps the selection and the
    sidebar is closed; without a query, and with pairwise distinct display
    names, the records then shown are the items of the clicked category. *)
Theorem click_selects_category (ui : UiState) (fc : FilteredCategory) :
  fc ∈ filteredCategories (categories (appState ui)) (searchQuery (appState ui)) ->
  let ui' := flushEffect (selectCategory (category fc) ui) in
  selectedCategory (appState ui') = category fc /\
  isSidebarOpen ui' = false /\
  categories (appState ui') = categories (appState ui) /\
  searchQuery (appState ui') = searchQuery (appState ui) /\
  (Str.trim (searchQuery (appState ui)) = "" ->
   NoDup (category <$> categories (appState ui)) ->
   displayMetrics (appState ui') = items fc).
Proof.
  intros Hfc ui'.
  assert (Hkeep : appState ui' =
                  mkState (categories (appState ui)) (searchQuery (appState ui)) (category fc)).
  { unfold ui', flushEffect, selectCategory, closeSidebar. simpl.
    apply watchEffect_keeps. unfold visibleNames. simpl.
    apply list_elem_of_fmap. exists fc. split; [reflexivity|exact Hfc]. }
  rewrite Hkeep. simpl.
  split; [reflexivity|]. split; [reflexivity|]. split; [reflexivity|].
  split; [reflexivity|].
  intros Hq Hnames.
  destruct (filteredCategories_elem _ _ fc Hfc) as (Hin & _).
  apply list_elem_of_In, in_split in Hin as (pre & post & Hsplit).
  rewrite (displayMetrics_no_query (mkState _ _ _)) by exact Hq. simpl.
  rewrite Hsplit in Hnames |- *.
  rewrite (find_first_named pre post (entry fc) (category fc) eq_refl
             (names_before_differ pre post (entry fc) Hnames)).
  reflexivity.
Qed.

Lemma click_selects_category_witness :
  selectedCategory
    (appState (flushEffect
       (selectCategory "Governance" (mkUi (mkState scenarioCatalog " " "Incident Response") true))))
  = "Governance" /\
  isSidebarOpen
    (flushEffect
       (selectCategory "Governance" (mkUi (mkState scenarioCatalog " " "Incident Response") true)))
  = false.
Proof.
  pose proof (click_selects_category
                (mkUi (mkState scenarioCatalog " " "Incident Response") true)
                {| entry := governanceEntry; matchCount := 2 |}) as H.
  assert (Hin : {| entry := governanceEntry; matchCount := 2 |}
                  ∈ filteredCategories scenarioCatalog " ").
  { apply list_elem_of_In. vm_compute. left. reflexivity. }
  destruct (H Hin) as (Hsel & Hclosed & _).
  split; [exact Hsel|exact Hclosed].
Defined.

(** ** Rows of a record *)

(** X13.  The rows of a record have pairwise distinct field names, are at
    most five, and each has a text that is not empty, not ["-"] and not
    ["null"] in any letter case, and an icon. *)
Theorem metricDetails_rows_wellformed (m : Metric) :
  NoDup (field <$> metricDetails m) /\
  (length (metricDetails m) <= 5)%nat /\
  (forall d : MetricDetail, d ∈ metricDetails m ->
     value d <> "" /\ value d <> "-" /\ Str.toLowerCase (value d) <> "null" /\
     is_Some (icon d)).
Proof.
  split; [|split].
  - rewrite metricDetails_rows.
    change field with (fun d => field d). rewrite <- list_fmap_compose.
    change (field ∘ detailRow m) with fieldName.
    eapply sublist_NoDup; [|apply fmap_sublist, sublist_filter].
    apply (bool_decide_unpack _). vm_compute. reflexivity.
  - rewrite metricDetails_rows, length_fmap.
    exact (sublist_length _ _ (sublist_filter (shownField m) detailFields)).
  - intros d Hd. apply metricDetails_elem in Hd as (f & -> & Hshown & Hf).
    unfold shownField, placeholder in Hshown. simpl.
    split; [intros Heq; apply Hshown; tauto|].
    split; [intros Heq; apply Hshown; tauto|].
    split; [intros Heq; apply Hshown; tauto|].
    unfold detailFields in Hf.
    repeat (apply elem_of_cons in Hf as [->|Hf]; [vm_compute; eauto|]).
    inversion Hf.
Qed.

(** ** Hydration seen from the raw record *)

Section RawView.

Lemma toComparable_coalesce (v : JsVal) :
  toComparable (v ?? JStr "") = toComparable v /\ toComparable (v ?? JNull) = toComparable v.
Proof. destruct v; split; reflexivity. Qed.

Lemma toComparable_hydrated (raw : Raw.MetricBase) (slug : string) (i : nat) (f : MetricField) :
  toComparable (getField (hydrateMetric raw slug i) f) = toComparable (getRawField raw f).
Proof. destruct f; simpl; apply toComparable_coalesce. Qed.

Lemma searchableFields_all (f : MetricField) : In f searchableFields.
Proof. destruct f; unfold searchableFields; simpl; tauto. Qed.

Lemma fieldText_absent (raw : Raw.MetricBase) (slug : string) (i : nat) (f : MetricField) :
  notNullish (getRawField raw f) = false ->
  fieldText (getField (hydrateMetric raw slug i) f) = "".
Proof.
  destruct f; simpl; unfold coalesce; intros H; rewrite H; reflexivity.
Qed.

End RawView.

(** X14.  What a hydrated record matches is decided by the raw record
    alone: a non-empty query finds it exactly when the lower-cased query
    occurs in the comparable form of one of the nine raw fields.  The
    defaults that hydration puts in and the identifier it adds are never
    searched. *)
Theorem hydrated_search_on_raw (raw : Raw.MetricBase) (slug : string) (i : nat) (q : string) :
  matchesSearch (hydrateMetric raw slug i) q = true <->
  q = "" \/
  exists f : MetricField, Substring (Str.toLowerCase q) (toComparable (getRawField raw f)).
Proof.
  unfold matchesSearch. destruct (Str.truthy q) eqn:Hq; cbn [negb].
  - apply truthy_true in Hq. rewrite existsb_exists. split.
    + intros (f & _ & Hinc). right. exists f.
      apply includes_spec in Hinc. rewrite toComparable_hydrated in Hinc. exact Hinc.
    + intros [Hempty|[f Hsub]]; [contradiction|].
      exists f. split; [apply searchableFields_all|].
      apply includes_spec. rewrite toComparable_hydrated. exact Hsub.
  - apply truthy_false in Hq. split; [intros _; left; exact Hq | reflexivity].
Qed.

(** X15.  A key that the raw record omits, or gives as [null], leaves no
    row in the details of the hydrated record. *)
Theorem absent_field_no_row (raw : Raw.MetricBase) (slug : string) (i : nat)
    (f : MetricField) (d : MetricDetail) :
  notNullish (getRawField raw f) = false ->
  d ∈ metricDetails (hydrateMetric raw slug i) ->
  field d <> fieldName f.
Proof.
  intros Habsent. apply metricDetails_hidden.
  rewrite (fieldText_absent raw slug i f Habsent). left. reflexivity.
Qed.

Lemma absent_field_no_row_witness :
  notNullish (getRawField partialRecord FTarget) = false /\
  {| field := "ReportPeriod"; value := "Quarterly"; icon := Some "repeat" |}
    ∈ metricDetails (hydrateMetric partialRecord "security-program" 0) /\
  "ReportPeriod" <> fieldName FTarget.
Proof.
  assert (Hin : {| field := "ReportPeriod"; value := "Quarterly"; icon := Some "repeat" |}
                  ∈ metricDetails (hydrateMetric partialRecord "security-program" 0)).
  { apply list_elem_of_In. vm_compute. left. reflexivity. }
  split; [reflexivity|]. split; [exact Hin|].
  exact (absent_field_no_row partialRecord "security-program" 0 FTarget _ eq_refl Hin).
Defined.

(** ** The empty-state panel *)

Section EmptyState.

Lemma no_match_no_category (p : Metric -> bool) (catalog : list CategoryEntry) :
  List.filter p (concat (items <$> catalog)) = [] <->
  List.filter (fun c => 0 <? Z.of_nat (length (List.filter p (items c)))) catalog = [].
Proof.
  induction catalog as [|c l IH]; [split; reflexivity|].
  rewrite fmap_cons. cbn [concat List.filter]. rewrite List.filter_app.
  destruct (List.filter p (items c)) as [|m ms] eqn:Hc; simpl.
  - exact IH.
  - split; intros H; discriminate H.
Qed.

Lemma map_nil_iff {A B : Type} (g : A -> B) (l : list A) : map g l = [] <-> l = [].
Proof. destruct l; simpl; split; intros H; congruence. Qed.

(** A state the effect leaves alone has its selection among the visible
    names, unless nothing is visible. *)
Lemma settled_selection (st : AppState) :
  watchEffect st = st ->
  selectedCategory st ∈ visibleNames st \/ visibleNames st = [].
Proof.
  intros Hfix. destruct (decide (selectedCategory st ∈ visibleNames st)) as [Hin|Hout];
    [left; exact Hin|].
  destruct (visibleNames st) as [|name rest] eqn:Hnames; [right; reflexivity|].
  exfalso. apply Hout. rewrite <- Hfix at 1.
  rewrite (watchEffect_replaces st); [|rewrite Hnames; exact Hout].
  simpl. rewrite Hnames. simpl. left.
Qed.

End EmptyState.

(** X16.  The panel for "no metrics found" and the sidebar agree.  While a
    query is active no record is shown exactly when no category is visible.
    Without a query the same holds once the effect has settled the
    selection, in a catalog whose counts are the sizes of the item lists
    and whose display names are pairwise distinct. *)
Theorem nothing_shown_iff_nothing_visible (st : AppState) :
  (Str.trim (searchQuery st) <> "" ->
   (displayMetrics st = [] <-> filteredCategories (categories st) (searchQuery st) = [])) /\
  (Str.trim (searchQuery st) = "" ->
   Forall countsItems (categories st) ->
   NoDup (category <$> categories st) ->
   watchEffect st = st ->
   (displayMetrics st = [] <-> filteredCategories (categories st) (searchQuery st) = [])).
Proof.
  split.
  - intros Hq. rewrite (displayMetrics_query st Hq).
    rewrite (filteredCategories_query _ _ Hq), map_nil_iff.
    apply no_match_no_category.
  - intros Hq Hwf Hnames Hfix.
    rewrite (displayMetrics_no_query st Hq).
    destruct (settled_selection st Hfix) as [Hin|Hnone].
    + apply list_elem_of_fmap in Hin as (fc & Hname & Hfc).
      destruct (filteredCategories_elem _ _ fc Hfc) as (Hcat & _ & Hblank).
      destruct (Hblank Hq) as [_ Hpos].
      pose proof Hcat as Hsplit.
      apply list_elem_of_In, in_split in Hsplit as (pre & post & Hsplit).
      rewrite Hsplit in Hnames.
      rewrite Hsplit at 1.
      rewrite (find_first_named pre post (entry fc) (selectedCategory st) (eq_sym Hname)).
      2:{ rewrite Hname. apply (names_before_differ pre post _ Hnames). }
      simpl. rewrite Forall_forall in Hwf.
      apply (countsItems_positive _ (Hwf _ Hcat)) in Hpos.
      split; [intros H; contradiction|].
      intros Hnil. rewrite Hnil in Hfc. inversion Hfc.
    + unfold visibleNames in Hnone. apply fmap_nil_inv in Hnone.
      split; [intros _; exact Hnone|]. intros _.
      destruct (List.find _ _) as [c|] eqn:Hfind; simpl; [|reflexivity].
      apply find_some in Hfind as [Hc _]. apply list_elem_of_In in Hc.
      rewrite (filteredCategories_blank _ _ Hq) in Hnone. apply map_nil_iff in Hnone.
      rewrite Forall_forall in Hwf. specialize (Hwf c Hc).
      destruct (items c) as [|m ms] eqn:Hitems; [reflexivity|exfalso].
      assert (Hpos : (0 <? count c) = true).
      { apply Z.ltb_lt, (countsItems_positive c Hwf). rewrite Hitems. discriminate. }
      assert (Hcin : In c (List.filter (fun c => 0 <? count c) (categories st))).
      { apply filter_In. split; [apply list_elem_of_In, Hc|exact Hpos]. }
      rewrite Hnone in Hcin. exact Hcin.
Qed.
